(** * misp_db_extractor: the extraction-and-cache pipeline

    A shallow embedding of [misp_db_extractor.py]: the windowed query of
    [fetch_recent_iocs], the normalisation of the timestamp fields of each
    row, the rotation of the cache file in [backup_cache_db], the cache
    writer [save_to_cache_db] and the orchestration of [main].

    Python dictionaries are finite maps from strings to Python values, the
    file system is a finite map from paths to file contents, and the
    effects of the script (logging, the connection, the files) are threaded
    through a state-and-exception monad. *)

From Stdlib Require Import ZArith Lia List Ascii String Bool.
From stdpp Require Import base option list gmap strings.

Local Open Scope Z_scope.

(** ** Python values and exceptions *)

(** The values a row of the MySQL result dictionary (or a bound SQLite
    parameter) can hold.  [PDate] is a [datetime.date], carried by its ISO
    text; [POther] is an object of any other class. *)
Inductive pyval : Type :=
| PNone
| PInt (n : Z)
| PStr (s : string)
| PDate (iso : string)
| POther (cls : string).

#[global] Instance pyval_eq_dec : EqDecision pyval.
Proof. solve_decision. Defined.

(** Truth value of an object in a condition ([if x:]). *)
Definition truthy (v : pyval) : bool :=
  match v with
  | PNone => false
  | PInt n => negb (n =? 0)
  | PStr s => match s with EmptyString => false | String _ _ => true end
  | PDate _ => true
  | POther _ => true
  end.

(** A row as produced by a [dictionary=True] cursor. *)
Abbreviation row := (gmap string pyval).

(** Exceptions, by the classes the script's handlers tell apart: the
    subclasses of [Exception], among them [mysql.connector.Error], and
    [SystemExit], a [BaseException] that [except Exception] lets through. *)
Inductive exception : Type :=
| MySQLError
| TypeError
| ValueError
| OverflowError
| AttributeError
| OSError
| SqliteError.

Inductive exn : Type :=
| Exc (e : exception)
| SystemExit (code : Z).

Coercion Exc : exception >-> exn.

(** [isinstance(e, mysql.connector.Error)]. *)
Definition is_mysql_error (e : exn) : bool :=
  match e with Exc MySQLError => true | _ => false end.

(** [isinstance(e, Exception)]. *)
Definition is_exception (e : exn) : bool :=
  match e with Exc _ => true | SystemExit _ => false end.

(** Bounds of a signed 64-bit integer ([time_t], an SQLite INTEGER). *)
Definition INT64_MIN : Z := -9223372036854775808.
Definition INT64_MAX : Z := 9223372036854775807.

(** The outcome of a call: a value, or what it raised.  A call of the
    libraries raises an [exception]; the script itself can also raise
    [SystemExit]. *)
Inductive result (X A : Type) : Type :=
| Ok (a : A)
| Raise (e : X).
Arguments Ok {X A} a.
Arguments Raise {X A} e.

Abbreviation fallible A := (result exception A).

(** ** Naive local date-times *)

Module DateTime.

(** A naive [datetime] is kept as the number of seconds of its wall-clock
    reading since 1970-01-01 00:00:00 on the same clock. *)
Definition wall := Z.

(** [datetime.min] and [datetime.max] (years 1 to 9999). *)
Definition MIN_WALL : Z := -62135596800.
Definition MAX_WALL : Z := 253402300799.

Definition in_range (w : wall) : bool := (MIN_WALL <=? w) && (w <=? MAX_WALL).

(** Proleptic Gregorian date of a day number counted from 1970-01-01. *)
Definition civil_from_days (z : Z) : Z * Z * Z :=
  let z := z + 719468 in
  let era := z / 146097 in
  let doe := z - era * 146097 in
  let yoe := (doe - doe / 1460 + doe / 36524 - doe / 146096) / 365 in
  let doy := doe - (365 * yoe + yoe / 4 - yoe / 100) in
  let mp := (5 * doy + 2) / 153 in
  let d := doy - (153 * mp + 2) / 5 + 1 in
  let m := if mp <? 10 then mp + 3 else mp - 9 in
  let y := yoe + era * 400 + (if m <=? 2 then 1 else 0) in
  (y, m, d).

Definition year (w : wall) : Z := fst (fst (civil_from_days (w / 86400))).
Definition month (w : wall) : Z := snd (fst (civil_from_days (w / 86400))).
Definition day (w : wall) : Z := snd (civil_from_days (w / 86400)).
Definition hour (w : wall) : Z := (w mod 86400) / 3600.
Definition minute (w : wall) : Z := (w mod 3600) / 60.
Definition second (w : wall) : Z := w mod 60.

Definition digit_char (d : Z) : ascii := ascii_of_nat (48 + Z.to_nat d).

Definition is_digit (c : ascii) : bool :=
  let n := nat_of_ascii c in (Nat.leb 48 n) && (Nat.leb n 57).

(** [%m], [%d], [%H], [%M], [%S]: two digits, zero padded. *)
Definition pad2 (n : Z) (rest : string) : string :=
  String (digit_char (n / 10)) (String (digit_char (n mod 10)) rest).

(** [%Y] as the C library prints it: the decimal digits of the year. *)
Fixpoint decimal (fuel : nat) (n : Z) (rest : string) : string :=
  match fuel with
  | O => rest
  | S fuel' =>
      let rest' := String (digit_char (n mod 10)) rest in
      if n <? 10 then rest' else decimal fuel' (n / 10) rest'
  end.

(** [dt.strftime("%Y-%m-%d %H:%M:%S")]. *)
Definition strftime (w : wall) : string :=
  decimal 4 (year w)
    (String "-" (pad2 (month w)
      (String "-" (pad2 (day w)
        (String " " (pad2 (hour w)
          (String ":" (pad2 (minute w)
            (String ":" (pad2 (second w) EmptyString))))))))))%char.

(** The shape [YYYY-MM-DD HH:MM:SS]. *)
Definition is_timestamp_format (s : string) : bool :=
  match list_ascii_of_string s with
  | [y1; y2; y3; y4; c1; m1; m2; c2; d1; d2; c3; h1; h2; c4; n1; n2; c5; s1; s2] =>
      forallb is_digit [y1; y2; y3; y4; m1; m2; d1; d2; h1; h2; n1; n2; s1; s2]
      && Ascii.eqb c1 "-" && Ascii.eqb c2 "-" && Ascii.eqb c3 " "
      && Ascii.eqb c4 ":" && Ascii.eqb c5 ":"
  | _ => false
  end%char.

End DateTime.


(** ** Configuration and the source database *)

(** The settings the pipeline reads from [config]. [backup_db] is optional:
    the script reads it with [config['output'].get('backup_db', ...)]. *)
Record config : Type := {
  hours_lookback : Z;
  ioc_types : list string;
  json_file : string;
  cache_db : string;
  backup_db : option string
}.

Definition DEFAULT_BACKUP_DB : string := "ioc_cache_yesterday.db".

(** [os.path.join(dir, name)] on POSIX paths. *)
Definition path_join (dir name : string) : string :=
  match name with
  | String "/" _ => name
  | _ => if String.eqb dir "/" then (dir ++ name)%string
         else (dir ++ "/" ++ name)%string
  end.

(** The two MISP tables the query reads.  Both [timestamp] columns are
    integer epoch seconds: [fetch_recent_iocs] hands them to
    [datetime.fromtimestamp]. *)
Record event_row : Type := {
  e_id : Z;
  e_uuid : string;
  e_info : string;
  e_date : string;
  e_timestamp : Z
}.

Record attribute_row : Type := {
  a_id : Z;
  a_event_id : Z;
  a_type : string;
  a_category : string;
  a_value1 : string;
  a_timestamp : Z;
  a_comment : option string;
  a_to_ids : Z
}.

Record source_db : Type := {
  events : list event_row;
  attributes : list attribute_row
}.

(** ** The query, as the server evaluates it *)

Module MySQL.

(** Conversion of a string to a number in a numeric context: the value
    of its leading digits (what follows them is dropped with a warning).
    Only the unsigned integer prefix is needed here, the strings compared
    are [strftime] results, which start with the digits of the year
    followed by [-]. *)
Fixpoint leading_digits (s : string) (acc : Z) : Z :=
  match s with
  | String c s' =>
      if DateTime.is_digit c
      then leading_digits s' (10 * acc + (Z.of_nat (nat_of_ascii c) - 48))
      else acc
  | EmptyString => acc
  end.

Definition number_of_string (s : string) : Z := leading_digits s 0.

(** [col >= %s] for an integer column and a string parameter: the two
    sides are compared as numbers. *)
Definition int_ge_string (n : Z) (s : string) : bool :=
  number_of_string s <=? n.

(** [events e JOIN attributes a ON e.id = a.event_id]. *)
Definition join (db : source_db) : list (event_row * attribute_row) :=
  flat_map
    (fun a => map (fun e => (e, a))
                  (List.filter (fun e => e_id e =? a_event_id a) (events db)))
    (attributes db).

(** [a.type IN (types) AND (a.timestamp >= p1 OR e.timestamp >= p2)];
    the membership test is taken as equality of strings. *)
Definition where_clause (types : list string) (p1 p2 : string)
    (ea : event_row * attribute_row) : bool :=
  bool_decide (a_type (snd ea) ∈ types)
  && (int_ge_string (a_timestamp (snd ea)) p1
      || int_ge_string (e_timestamp (fst ea)) p2).

(** [ORDER BY a.timestamp DESC]; rows with equal keys keep their order. *)
Fixpoint insert_desc (x : event_row * attribute_row)
    (l : list (event_row * attribute_row)) : list (event_row * attribute_row) :=
  match l with
  | [] => [x]
  | y :: l' =>
      if a_timestamp (snd y) <=? a_timestamp (snd x)
      then x :: y :: l'
      else y :: insert_desc x l'
  end.

Definition order_by_desc (l : list (event_row * attribute_row)) :=
  foldr insert_desc [] l.

(** The [SELECT ... AS ...] list, as a dictionary row. *)
Definition select_columns (ea : event_row * attribute_row) : row :=
  let (e, a) := ea in
  list_to_map
    [ ("event_id", PInt (e_id e));
      ("event_uuid", PStr (e_uuid e));
      ("event_info", PStr (e_info e));
      ("event_date", PDate (e_date e));
      ("event_timestamp", PInt (e_timestamp e));
      ("attribute_id", PInt (a_id a));
      ("attribute_type", PStr (a_type a));
      ("attribute_category", PStr (a_category a));
      ("attribute_value", PStr (a_value1 a));
      ("attribute_timestamp", PInt (a_timestamp a));
      ("attribute_comment", from_option PStr PNone (a_comment a));
      ("attribute_to_ids", PInt (a_to_ids a)) ]%string.

(** The result set of the query for the parameters
    [types + [p1, p2]]. *)
Definition result_set (db : source_db) (types : list string)
    (p1 p2 : string) : list row :=
  map select_columns
      (order_by_desc (List.filter (where_clause types p1 p2) (join db))).

End MySQL.

(** ** Row normalisation (the body of the result loop) *)

Section Normalise.

(** Offset of local time from UTC, in seconds, at a given instant. *)
Variable utcoffset : Z -> Z.

(** [datetime.datetime.fromtimestamp(v)]. *)
Definition fromtimestamp (v : pyval) : fallible DateTime.wall :=
  match v with
  | PInt n =>
      if (n <? INT64_MIN) || (INT64_MAX <? n) then Raise OverflowError
      else
        let w := n + utcoffset n in
        if DateTime.in_range w then Ok w else Raise ValueError
  | _ => Raise TypeError
  end.

(** [if k in row and row[k]: row[k] = fromtimestamp(row[k]).strftime(...)] *)
Definition normalize_field (k : string) (r : row) : fallible row :=
  match r !! k with
  | Some v =>
      if truthy v then
        match fromtimestamp v with
        | Ok w => Ok (<[k := PStr (DateTime.strftime w)]> r)
        | Raise e => Raise e
        end
      else Ok r
  | None => Ok r
  end.

Definition normalize (r : row) : fallible row :=
  match normalize_field "event_timestamp" r with
  | Ok r' => normalize_field "attribute_timestamp" r'
  | Raise e => Raise e
  end.

(** The [for row in cursor] loop: each item of the stream is a row or the
    error the cursor raises when asked for it.  Returns [iocs] as it
    stands when the loop ends, and the exception that ended it, if any. *)
Fixpoint result_loop (stream : list (fallible row)) (iocs : list row)
    : list row * option exception :=
  match stream with
  | [] => (iocs, None)
  | Raise e :: _ => (iocs, Some e)
  | Ok r :: rest =>
      match normalize r with
      | Ok r' => result_loop rest (iocs ++ [r'])
      | Raise e => (iocs, Some e)
      end
  end.

End Normalise.

(** ** Files and the SQLite cache store *)

Inductive sqlval : Type :=
| SNull
| SInteger (n : Z)
| SText (s : string).

#[global] Instance sqlval_eq_dec : EqDecision sqlval.
Proof. solve_decision. Defined.

(** A table: its column names in declaration order, its rows (one cell per
    column, holding the value as it was bound) and the largest key the
    [AUTOINCREMENT] column has handed out. *)
Record table : Type := {
  columns : list string;
  tbl_rows : list (gmap string sqlval);
  autoinc : Z
}.

Record database : Type := {
  misp_iocs : option table;
  indices : list string
}.

Definition empty_database : database :=
  {| misp_iocs := None; indices := [] |}.

(** What a path can hold: a cache store, a JSON snapshot (complete, or cut
    short by a failed [json.dump]) or any other bytes. *)
Inductive content : Type :=
| Sqlite (db : database)
| Snapshot (doc : list row) (complete : bool)
| Opaque (data : string).

(** ** The world of one run *)

Inductive level : Type := INFO | WARNING | ERROR.

(** What the run leaves in its journal: the log records (level and the
    fixed part of the message) and the calls made on the source
    connection. *)
Inductive event : Type :=
| Log (lvl : level) (msg : string)
| CursorOpened
| Executed (params : list pyval)
| CursorClosed
| ConnectionClosed.

(** Where the result of the query can fail with a connector error: when the
    cursor is created, when the statement is executed, or when the row of
    index [k] is read from the server. *)
Inductive query_fault : Type :=
| QueryOk
| CursorFails
| ExecuteFails
| FetchFails (k : nat).

(** Everything a run reads from outside and does not change. *)
Record env : Type := {
  script_dir : string;
  cfg : config;
  source : source_db;
  utcoffset : Z -> Z;
  now_query : Z;
  now_import : Z;
  connect_raises : option exception;
  ping : nat -> bool;
  query_faults : query_fault;
  json_open_fails : bool;
  copy_fails : bool;
  remove_fails : bool;
  sqlite_connect_fails : bool;
  sqlite_ddl_fails : bool;
  sqlite_insert_fails : option nat;
  sqlite_commit_fails : bool
}.

(** What a run changes: the files, the journal, and how many times the
    connection has been asked [is_connected()] (the answers are
    [ping 0], [ping 1], ...). *)
Record state : Type := {
  files : gmap string content;
  journal : list event;
  pings : nat
}.

Definition set_files (f : gmap string content) (s : state) : state :=
  {| files := f; journal := journal s; pings := pings s |}.

Definition add_event (ev : event) (s : state) : state :=
  {| files := files s; journal := journal s ++ [ev]; pings := pings s |}.

Definition add_ping (s : state) : state :=
  {| files := files s; journal := journal s; pings := S (pings s) |}.

(** ** State and exceptions *)

Definition M (A : Type) : Type := state -> result exn A * state.

Definition ret {A} (a : A) : M A := fun s => (Ok a, s).

Definition raise {A} (e : exn) : M A := fun s => (Raise e, s).

Definition bind {A B} (m : M A) (k : A -> M B) : M B :=
  fun s =>
    match m s with
    | (Ok a, s') => k a s'
    | (Raise e, s') => (Raise e, s')
    end.

(** [try: body / except <catches> as e: handler e]. *)
Definition try_except {A} (body : M A) (catches : exn -> bool)
    (handler : exn -> M A) : M A :=
  fun s =>
    match body s with
    | (Raise e, s') => if catches e then handler e s' else (Raise e, s')
    | r => r
    end.

(** [try: body / finally: cleanup]. *)
Definition finally {A} (body : M A) (cleanup : M unit) : M A :=
  fun s =>
    match body s with
    | (r, s') =>
        match cleanup s' with
        | (Ok _, s'') => (r, s'')
        | (Raise e, s'') => (Raise e, s'')
        end
    end.

(** A library call made by the script. *)
Definition lift {A} (r : fallible A) : M A :=
  fun s => (match r with Ok a => Ok a | Raise e => Raise (Exc e) end, s).

Definition emit (ev : event) : M unit := fun s => (Ok tt, add_event ev s).

Definition log (lvl : level) (msg : string) : M unit := emit (Log lvl msg).

Declare Scope py_scope.
Delimit Scope py_scope with py.
Notation "'let!' x ':=' m 'in' k" := (bind m (fun x => k))
  (at level 10, x name, m at level 100, k at level 200) : py_scope.
Notation "'do!' m 'in' k" := (bind m (fun _ => k))
  (at level 10, m at level 100, k at level 200) : py_scope.
Local Open Scope py_scope.

(** ** The SQLite statements of the cache writer *)

Module SQLite.

(** The columns of [CREATE TABLE IF NOT EXISTS misp_iocs (...)]. *)
Definition CACHE_COLUMNS : list string :=
  [ "id"; "event_id"; "event_uuid"; "event_info"; "event_date";
    "event_timestamp"; "attribute_id"; "attribute_type";
    "attribute_category"; "attribute_value"; "attribute_timestamp";
    "attribute_comment"; "attribute_to_ids"; "import_time";
    "executive_summary" ]%string.

(** The column list of [INSERT INTO misp_iocs (...)]. *)
Definition INSERT_COLUMNS : list string :=
  [ "event_id"; "event_uuid"; "event_info"; "event_date";
    "event_timestamp"; "attribute_id"; "attribute_type";
    "attribute_category"; "attribute_value"; "attribute_timestamp";
    "attribute_comment"; "attribute_to_ids"; "import_time" ]%string.

Definition create_table (d : database) : fallible database :=
  match misp_iocs d with
  | Some _ => Ok d
  | None =>
      Ok {| misp_iocs :=
              Some {| columns := CACHE_COLUMNS; tbl_rows := []; autoinc := 0 |};
            indices := indices d |}
  end.

(** [CREATE INDEX IF NOT EXISTS name ON misp_iocs (col)]. *)
Definition create_index (name col : string) (d : database)
    : fallible database :=
  if bool_decide (name ∈ indices d) then Ok d
  else
    match misp_iocs d with
    | None => Raise SqliteError
    | Some t =>
        if bool_decide (col ∈ columns t)
        then Ok {| misp_iocs := misp_iocs d; indices := indices d ++ [name] |}
        else Raise SqliteError
    end.

(** Binding of one Python value to a [?] placeholder. *)
Definition bind_param (v : pyval) : fallible sqlval :=
  match v with
  | PNone => Ok SNull
  | PInt n =>
      if (INT64_MIN <=? n) && (n <=? INT64_MAX) then Ok (SInteger n)
      else Raise OverflowError
  | PStr s => Ok (SText s)
  | PDate iso => Ok (SText iso)
  | POther _ => Raise SqliteError
  end.

Fixpoint bind_params (vs : list pyval) : fallible (list sqlval) :=
  match vs with
  | [] => Ok []
  | v :: vs' =>
      match bind_param v, bind_params vs' with
      | Ok c, Ok cs => Ok (c :: cs)
      | Raise e, _ => Raise e
      | _, Raise e => Raise e
      end
  end.

(** The row an [INSERT] with column list [cols] builds: the key for
    [id], the bound value for a listed column, [NULL] for any other. *)
Definition new_row (t : table) (cols : list string) (cells : list sqlval)
    (key : Z) : gmap string sqlval :=
  let given : gmap string sqlval := list_to_map (zip cols cells) in
  list_to_map
    (map (fun c => (c, if String.eqb c "id" then SInteger key
                       else default SNull (given !! c)))
         (columns t)).

Definition insert (cols : list string) (vals : list pyval) (d : database)
    : fallible database :=
  match misp_iocs d with
  | None => Raise SqliteError
  | Some t =>
      if forallb (fun c => bool_decide (c ∈ columns t)) cols then
        match bind_params vals with
        | Raise e => Raise e
        | Ok cells =>
            let key := autoinc t + 1 in
            Ok {| misp_iocs :=
                    Some {| columns := columns t;
                            tbl_rows := tbl_rows t ++ [new_row t cols cells key];
                            autoinc := key |};
                  indices := indices d |}
        end
      else Raise SqliteError
  end.

(** What [sqlite3.connect] finds at a path: a missing or empty file is
    an empty database, other bytes are not a database. *)
Definition open_database (c : option content) : option database :=
  match c with
  | None => Some empty_database
  | Some (Sqlite d) => Some d
  | Some (Opaque EmptyString) => Some empty_database
  | Some _ => None
  end.

End SQLite.

(** The tuple of values [save_to_cache_db] binds for one record. *)
Definition insert_values (current_time : string) (ioc : row) : list pyval :=
  let get k := default PNone (ioc !! k) in
  [ get "event_id"; get "event_uuid"; get "event_info"; get "event_date";
    get "event_timestamp"; get "attribute_id"; get "attribute_type";
    get "attribute_category"; get "attribute_value";
    get "attribute_timestamp"; get "attribute_comment";
    default (PInt 0) (ioc !! "attribute_to_ids");
    PStr current_time ]%string.

(** [json.dump] accepts [None], integers and strings among the values of a
    row, and raises [TypeError] on any other object. *)
Definition json_serialisable (r : row) : bool :=
  forallb (fun kv => match snd kv with
                     | PNone | PInt _ | PStr _ => true
                     | _ => false
                     end)
          (map_to_list r).

Fixpoint serialisable_prefix (iocs : list row) : list row :=
  match iocs with
  | [] => []
  | r :: rest => if json_serialisable r then r :: serialisable_prefix rest else []
  end.

(** ** The pipeline *)

(** The connection object returned by [mysql.connector.connect]. *)
Inductive connection : Type := Conn.

(** An open [sqlite3] connection: the path, the database as this
    connection sees it ([None] when the file is not a database) and
    whether a transaction is open. *)
Record sqlconn : Type := {
  sc_path : string;
  sc_work : option database;
  sc_in_txn : bool
}.

Section Pipeline.

Variable E : env.

(** *** Source connector *)

Definition mysql_connect : M connection :=
  match connect_raises E with
  | Some e => raise e
  | None => ret Conn
  end.

Definition is_connected (c : connection) : M bool :=
  fun s => (Ok (ping E (pings s)), add_ping s).

Definition connect_to_db : M (option connection) :=
  try_except
    (do! log INFO "Connecting to MISP database..." in
     let! connection := mysql_connect in
     let! up := is_connected connection in
     if up then
       do! log INFO "Successfully connected to MISP database" in
       ret (Some connection)
     else ret None)
    is_mysql_error
    (fun _ =>
       do! log ERROR "Error connecting to MISP database" in
       ret None).

(** *** Delta query *)

(** [datetime.datetime.now()]. *)
Definition datetime_now (clock : Z) : fallible DateTime.wall :=
  fromtimestamp (utcoffset E) (PInt clock).

(** [(datetime.now() - timedelta(hours=hours)).strftime(...)]. *)
Definition lookback_timestamp (hours : Z) : fallible string :=
  match datetime_now (now_query E) with
  | Raise e => Raise e
  | Ok now =>
      let lookback_time := now - hours * 3600 in
      if DateTime.in_range lookback_time
      then Ok (DateTime.strftime lookback_time)
      else Raise OverflowError
  end.

(** The rows the cursor hands over, with the error of a failing read. *)
Definition cursor_stream (rows : list row) : list (fallible row) :=
  match query_faults E with
  | FetchFails k =>
      if Nat.leb k (length rows)
      then map Ok (take k rows) ++ [Raise MySQLError]
      else map Ok rows
  | _ => map Ok rows
  end.

(** [cursor.execute(query, IOC_TYPES + [timestamp, timestamp])]; an empty
    type list makes the statement [... IN () ...], which the server
    rejects. *)
Definition cursor_execute (types : list string) (p1 p2 : string)
    : M (list (fallible row)) :=
  do! emit (Executed (map PStr types ++ [PStr p1; PStr p2])) in
  match query_faults E, types with
  | ExecuteFails, _ => raise MySQLError
  | _, [] => raise MySQLError
  | _, _ => ret (cursor_stream (MySQL.result_set (source E) types p1 p2))
  end.

(** The [except Error] clause of [fetch_recent_iocs], with [iocs] as it
    stands when the exception arrives. *)
Definition on_query_error (iocs : list row) (e : exn) : M (list row) :=
  if is_mysql_error e then
    do! log ERROR "Error querying MISP database" in
    ret iocs
  else raise e.

Definition fetch_recent_iocs (connection : option connection)
    (hours : option Z) : M (list row) :=
  let hours := default (hours_lookback (cfg E)) hours in
  let! up := match connection with
             | None => ret false
             | Some c => is_connected c
             end in
  if negb up then
    do! log ERROR "Database connection is not established" in
    ret []
  else
    match query_faults E with
    | CursorFails => on_query_error [] (Exc MySQLError)
    | _ =>
        do! emit CursorOpened in
        finally
          (let! timestamp := lift (lookback_timestamp hours) in
           fun s =>
             match cursor_execute (ioc_types (cfg E)) timestamp timestamp s with
             | (Raise e, s') => on_query_error [] e s'
             | (Ok stream, s') =>
                 match result_loop (utcoffset E) stream [] with
                 | (iocs, None) =>
                     (do! log INFO "Retrieved IOCs" in ret iocs) s'
                 | (iocs, Some e) => on_query_error iocs (Exc e) s'
                 end
             end)
          (emit CursorClosed)
    end.

(** *** Snapshot writer *)

(** [open(path, 'w')]: truncates the file. *)
Definition open_write (path : string) : M unit :=
  fun s =>
    if json_open_fails E then (Raise (Exc OSError), s)
    else (Ok tt, set_files (<[path := Snapshot [] false]> (files s)) s).

Definition json_dump (iocs : list row) (path : string) : M unit :=
  fun s =>
    if forallb json_serialisable iocs
    then (Ok tt, set_files (<[path := Snapshot iocs true]> (files s)) s)
    else (Raise (Exc TypeError),
          set_files (<[path := Snapshot (serialisable_prefix iocs) false]> (files s)) s).

Definition save_to_json (iocs : list row) (output_file : option string)
    : M unit :=
  let output_file :=
    default (path_join (script_dir E) (json_file (cfg E))) output_file in
  try_except
    (do! open_write output_file in
     do! json_dump iocs output_file in
     log INFO "Successfully saved IOCs")
    is_exception
    (fun _ => log ERROR "Error saving IOCs to file").

(** *** Cache rotator *)

Definition path_exists (path : string) : M bool :=
  fun s => (Ok (bool_decide (is_Some (files s !! path))), s).

(** [shutil.copy2(src, dst)]. *)
Definition copy2 (src dst : string) : M unit :=
  fun s =>
    match files s !! src with
    | Some c =>
        if copy_fails E || String.eqb src dst then (Raise (Exc OSError), s)
        else (Ok tt, set_files (<[dst := c]> (files s)) s)
    | None => (Raise (Exc OSError), s)
    end.

(** [os.remove(path)]. *)
Definition remove (path : string) : M unit :=
  fun s =>
    match files s !! path with
    | Some _ =>
        if remove_fails E then (Raise (Exc OSError), s)
        else (Ok tt, set_files (delete path (files s)) s)
    | None => (Raise (Exc OSError), s)
    end.

Definition backup_cache_db (db_path : string) (backup_path : option string)
    : M bool :=
  let backup_path :=
    default (path_join (script_dir E)
                       (default DEFAULT_BACKUP_DB (backup_db (cfg E))))
            backup_path in
  try_except
    (let! present := path_exists db_path in
     do! (if present then
            do! copy2 db_path backup_path in
            do! log INFO "Created backup of IOC cache" in
            do! remove db_path in
            log INFO "Removed old IOC cache"
          else log INFO "No existing IOC cache found") in
     ret true)
    is_exception
    (fun _ =>
       do! log ERROR "Error backing up cache database" in
       ret false).

(** *** Cache writer *)

(** [sqlite3.connect(path)]: a missing file is created, empty. *)
Definition sqlite_connect (path : string) : M sqlconn :=
  fun s =>
    if sqlite_connect_fails E then (Raise (Exc SqliteError), s)
    else
      let found := files s !! path in
      let s' := match found with
                | None => set_files (<[path := Opaque EmptyString]> (files s)) s
                | Some _ => s
                end in
      (Ok {| sc_path := path;
             sc_work := SQLite.open_database found;
             sc_in_txn := false |}, s').

(** The effect of a statement on the connection: inside a transaction it
    stays in the connection, outside it reaches the file at once. *)
Definition sqlite_apply (c : sqlconn) (d : database) (opens_txn : bool)
    : M sqlconn :=
  fun s =>
    let txn := sc_in_txn c || opens_txn in
    (Ok {| sc_path := sc_path c; sc_work := Some d; sc_in_txn := txn |},
     if txn then s
     else set_files (<[sc_path c := Sqlite d]> (files s)) s).

(** [cursor.execute] of a [CREATE ...] statement; the [sqlite3] module
    opens no transaction for it. *)
Definition sqlite_ddl (stmt : database -> fallible database) (c : sqlconn)
    : M sqlconn :=
  if sqlite_ddl_fails E then raise SqliteError
  else
    match sc_work c with
    | None => raise SqliteError
    | Some d =>
        let! d' := lift (stmt d) in
        sqlite_apply c d' false
    end.

(** [cursor.execute] of the [INSERT] for the record of index [i]; the
    module opens a transaction before the first one. *)
Definition sqlite_insert (i : nat) (vals : list pyval) (c : sqlconn)
    : M sqlconn :=
  if bool_decide (sqlite_insert_fails E = Some i) then raise SqliteError
  else
    match sc_work c with
    | None => raise SqliteError
    | Some d =>
        let! d' := lift (SQLite.insert SQLite.INSERT_COLUMNS vals d) in
        sqlite_apply c d' true
    end.

(** [conn.commit()]. *)
Definition sqlite_commit (c : sqlconn) : M unit :=
  fun s =>
    if sqlite_commit_fails E then (Raise (Exc SqliteError), s)
    else
      match sc_in_txn c, sc_work c with
      | true, Some d => (Ok tt, set_files (<[sc_path c := Sqlite d]> (files s)) s)
      | _, _ => (Ok tt, s)
      end.

(** [conn.close()]: what was not committed is dropped with the
    connection. *)
Definition sqlite_close (c : sqlconn) : M unit := ret tt.

(** [for ioc in iocs: cursor.execute(INSERT ...)]. *)
Fixpoint insert_all (current_time : string) (i : nat) (iocs : list row)
    (c : sqlconn) : M sqlconn :=
  match iocs with
  | [] => ret c
  | ioc :: rest =>
      let! c' := sqlite_insert i (insert_values current_time ioc) c in
      insert_all current_time (S i) rest c'
  end.

(** The body of the [try] of [save_to_cache_db], once connected. *)
Definition cache_batch (iocs : list row) (conn : sqlconn) : M unit :=
  let! conn := sqlite_ddl SQLite.create_table conn in
  let! conn := sqlite_ddl (SQLite.create_index "idx_attribute_type" "attribute_type") conn in
  let! conn := sqlite_ddl (SQLite.create_index "idx_attribute_value" "attribute_value") conn in
  let! conn := sqlite_ddl (SQLite.create_index "idx_event_id" "event_id") conn in
  let! now := lift (datetime_now (now_import E)) in
  let current_time := DateTime.strftime now in
  let! conn := insert_all current_time 0 iocs conn in
  do! sqlite_commit conn in
  log INFO "Successfully saved IOCs to cache database".

Definition on_cache_error (e : exn) : M unit :=
  if is_exception e then log ERROR "Error saving IOCs to cache database"
  else raise e.

Definition save_to_cache_db (iocs : list row) (db_path : option string)
    : M unit :=
  let db_path :=
    default (path_join (script_dir E) (cache_db (cfg E))) db_path in
  let backup_path :=
    path_join (script_dir E) (default DEFAULT_BACKUP_DB (backup_db (cfg E))) in
  let! backed_up := backup_cache_db db_path (Some backup_path) in
  do! (if backed_up then ret tt
       else log WARNING "Proceeding with database update without backup") in
  fun s =>
    match sqlite_connect db_path s with
    | (Raise e, s') => on_cache_error e s'
    | (Ok conn, s') =>
        finally
          (try_except (cache_batch iocs conn) is_exception on_cache_error)
          (sqlite_close conn) s'
    end.

(** *** Orchestration *)

(** The [finally] clause of [main], for a [connection] that was
    assigned. *)
Definition release (connection : option connection) : M unit :=
  match connection with
  | None => ret tt
  | Some c =>
      let! up := is_connected c in
      if up then
        do! emit ConnectionClosed in
        log INFO "Database connection closed"
      else ret tt
  end.

Definition on_unexpected (e : exn) : M unit :=
  if is_exception e then log ERROR "An unexpected error occurred"
  else raise e.

(** The [try] block of [main], from the connection test on. *)
Definition main_body (connection : option connection) : M unit :=
  match connection with
  | None =>
      do! log ERROR "Failed to connect to database. Exiting." in
      raise (SystemExit 1)
  | Some c =>
      do! log INFO "Fetching IOCs" in
      let! iocs := fetch_recent_iocs (Some c) None in
      match iocs with
      | [] => log WARNING "No IOCs found in the specified time period"
      | _ :: _ =>
          let json_path := path_join (script_dir E) (json_file (cfg E)) in
          do! save_to_json iocs (Some json_path) in
          let db_path := path_join (script_dir E) (cache_db (cfg E)) in
          do! save_to_cache_db iocs (Some db_path) in
          log INFO "Process completed successfully"
      end
  end.

(** [main]: when [connect_to_db] itself raises, [connection] is not among
    the locals and the [finally] clause has nothing to release. *)
Definition main : M unit :=
  fun s =>
    match connect_to_db s with
    | (Raise e, s') => on_unexpected e s'
    | (Ok connection, s') =>
        finally
          (try_except (main_body connection) is_exception on_unexpected)
          (release connection) s'
    end.

(** The status the interpreter exits with after [main()]. *)
Definition exit_status (r : result exn unit) : Z :=
  match r with
  | Ok _ => 0
  | Raise (SystemExit code) => code
  | Raise _ => 1
  end.

Definition run (s : state) : Z * state :=
  let (r, s') := main s in (exit_status r, s').

End Pipeline.

(** ** Vocabulary of the statements *)

(** First instant of the year 1000, from which [%Y] has four digits. *)
Definition YEAR1000_WALL : Z := -30610224000.

(** The test [k in row and row[k]] of the result loop. *)
Definition field_truthy (r : row) (k : string) : bool :=
  match r !! k with
  | Some v => truthy v
  | None => false
  end.

(** A timestamp field as the query delivers it: missing, [None], zero, or
    epoch seconds whose local date has a four-digit year. *)
Definition raw_timestamp (off : Z -> Z) (v : option pyval) : Prop :=
  match v with
  | None => True
  | Some PNone => True
  | Some (PInt n) =>
      n = 0 \/ (INT64_MIN <= n <= INT64_MAX
                /\ YEAR1000_WALL <= n + off n <= DateTime.MAX_WALL)
  | Some _ => False
  end.

(** What the loop makes of a raw timestamp field: a non-zero epoch becomes
    its local-time text, anything else stays as it is. *)
Definition timestamp_normalised (off : Z -> Z) (before after : option pyval)
    : Prop :=
  match before with
  | Some (PInt n) =>
      if n =? 0 then after = Some (PInt 0)
      else after = Some (PStr (DateTime.strftime (n + off n)))
           /\ DateTime.is_timestamp_format (DateTime.strftime (n + off n)) = true
  | other => after = other
  end.

(** A computation that never raises [SystemExit]: whatever it raises, an
    [except Exception] clause catches. *)
Definition mild {A} (m : M A) : Prop :=
  forall s, match fst (m s) with
            | Raise (SystemExit _) => False
            | _ => True
            end.

(** The rows of the cache table of a database, and of the store at a
    path (none when the path holds no cache store). *)
Definition table_rows (d : database) : list (gmap string sqlval) :=
  match misp_iocs d with
  | Some t => tbl_rows t
  | None => []
  end.

Definition stored_rows (fs : gmap string content) (path : string)
    : list (gmap string sqlval) :=
  match fs !! path with
  | Some (Sqlite d) => table_rows d
  | _ => []
  end.

(** The statements of the insert loop, one after the other, on a database
    that no fault of the environment disturbs. *)
Fixpoint insert_many (current_time : string) (iocs : list row) (d : database)
    : fallible database :=
  match iocs with
  | [] => Ok d
  | ioc :: rest =>
      match SQLite.insert SQLite.INSERT_COLUMNS (insert_values current_time ioc) d with
      | Ok d' => insert_many current_time rest d'
      | Raise e => Raise e
      end
  end.

(** Whether the values of a record can all be bound. *)
Definition binds (ioc : row) : bool :=
  match SQLite.bind_params (insert_values EmptyString ioc) with
  | Ok _ => true
  | Raise _ => false
  end.

(** The value of a column in a stored row. *)
Definition cell (r : gmap string sqlval) (c : string) : sqlval :=
  default SNull (r !! c).

(** The fields of a record that [save_to_cache_db] reads with a plain
    [ioc.get(k)]. *)
Definition PLAIN_FIELDS : list string :=
  [ "event_id"; "event_uuid"; "event_info"; "event_date"; "event_timestamp";
    "attribute_id"; "attribute_type"; "attribute_category"; "attribute_value";
    "attribute_timestamp"; "attribute_comment" ]%string.

(** What the store can tell about the connection before the insert loop:
    no transaction is open and the file holds what the connection sees. *)
Definition in_step (path : string) (c : sqlconn) (s : state) : Prop :=
  sc_in_txn c = false /\ sc_path c = path
  /\ match sc_work c with
     | Some d => stored_rows (files s) path = table_rows d
     | None => True
     end.

(** The four schema statements of [save_to_cache_db], in order. *)
Definition schema (d : database) : fallible database :=
  match SQLite.create_table d with
  | Raise e => Raise e
  | Ok d1 =>
      match SQLite.create_index "idx_attribute_type" "attribute_type" d1 with
      | Raise e => Raise e
      | Ok d2 =>
          match SQLite.create_index "idx_attribute_value" "attribute_value" d2 with
          | Raise e => Raise e
          | Ok d3 => SQLite.create_index "idx_event_id" "event_id" d3
          end
      end
  end.

(** Whether the environment makes one of the first [n] inserts fail. *)
Definition insert_fault_among (E : env) (n : nat) : bool :=
  match sqlite_insert_fails E with
  | Some k => Nat.ltb k n
  | None => false
  end.

(** The database the insert loop and the commit leave for the records
    [iocs], starting from [d]; [None] when the clock, an insert or the
    commit fails. *)
Definition inserts_of (E : env) (d : database) (iocs : list row)
    : option database :=
  match datetime_now E (now_import E) with
  | Raise _ => None
  | Ok now =>
      if insert_fault_among E (length iocs) then None
      else
        match insert_many (DateTime.strftime now) iocs d with
        | Ok d' => if sqlite_commit_fails E then None else Some d'
        | Raise _ => None
        end
  end.

(** The database the batch commits for the records [iocs] on a
    connection that sees [work]; [None] when the batch fails before its
    commit. *)
Definition batch_of (E : env) (work : option database) (iocs : list row)
    : option database :=
  if sqlite_ddl_fails E then None
  else
    match work with
    | None => None
    | Some d0 =>
        match schema d0 with
        | Ok d => inserts_of E d iocs
        | Raise _ => None
        end
    end.

(** The same for a run, given what the cache path holds once the rotation
    is over. *)
Definition batch_result (E : env) (found : option content) (iocs : list row)
    : option database :=
  if sqlite_connect_fails E then None
  else batch_of E (SQLite.open_database found) iocs.

(** How the writer stores the fields a record lacks. *)
Definition absent_fields_stored (ioc : row) (r : gmap string sqlval) : Prop :=
  (ioc !! "attribute_to_ids"%string = None ->
   r !! "attribute_to_ids"%string = Some (SInteger 0))
  /\ (forall k, In k PLAIN_FIELDS -> ioc !! k = None -> r !! k = Some SNull).

(** * Properties *)

(** ** Date-times and their text *)

Lemma civil_fields_in_range (w : Z) :
  DateTime.MIN_WALL <= w <= DateTime.MAX_WALL ->
  1 <= DateTime.year w <= 9999
  /\ 1 <= DateTime.month w <= 12
  /\ 1 <= DateTime.day w <= 31.
Proof.
  unfold DateTime.MIN_WALL, DateTime.MAX_WALL, DateTime.year, DateTime.month,
    DateTime.day, DateTime.civil_from_days.
  intros Hw. cbv zeta. cbn [fst snd].
  repeat match goal with
         | |- context [if ?b then _ else _] => destruct b eqn:?
         end;
    Z.to_euclidean_division_equations; lia.
Qed.

Lemma civil_year_from_1000 (z : Z) :
  -354285 <= z -> 1000 <= fst (fst (DateTime.civil_from_days z)).
Proof.
  intros Hz. unfold DateTime.civil_from_days. cbv zeta. cbn [fst snd].
  set (era := (z + 719468) / 146097).
  set (doe := z + 719468 - era * 146097).
  set (yoe := (doe - doe / 1460 + doe / 36524 - doe / 146096) / 365).
  set (doy := doe - (365 * yoe + yoe / 4 - yoe / 100)).
  set (mp := (5 * doy + 2) / 153).
  assert (He : 2 <= era)
    by (subst era; Z.to_euclidean_division_equations; lia).
  assert (Hdoe : 0 <= doe < 146097)
    by (subst doe era; Z.to_euclidean_division_equations; lia).
  assert (Hyoe : 0 <= yoe <= 399)
    by (subst yoe; Z.to_euclidean_division_equations; lia).
  destruct (Z.eq_dec era 2) as [He2 | He2].
  - assert (Hd : 72989 <= doe) by (subst doe; lia).
    assert (Hy : 199 <= yoe)
      by (subst yoe; Z.to_euclidean_division_equations; lia).
    destruct (Z.eq_dec yoe 199) as [Hy199 | Hy199].
    + assert (Hdoy : 306 <= doy <= 365).
      { subst doy. rewrite Hy199.
        change (199 / 4) with 49. change (199 / 100) with 1.
        subst yoe. Z.to_euclidean_division_equations; lia. }
      assert (Hmp : 10 <= mp <= 11)
        by (subst mp; Z.to_euclidean_division_equations; lia).
      destruct (mp <? 10) eqn:Hlt; [lia |].
      destruct (mp - 9 <=? 2) eqn:Hle; lia.
    + destruct (_ <=? 2); lia.
  - destruct (_ <=? 2); lia.
Qed.

Lemma year_four_digits (w : Z) :
  YEAR1000_WALL <= w <= DateTime.MAX_WALL -> 1000 <= DateTime.year w <= 9999.
Proof.
  intros Hw. split.
  - unfold DateTime.year. apply civil_year_from_1000.
    unfold YEAR1000_WALL in Hw. Z.to_euclidean_division_equations; lia.
  - apply civil_fields_in_range.
    unfold YEAR1000_WALL, DateTime.MIN_WALL in *. lia.
Qed.

Lemma clock_fields_in_range (w : Z) :
  0 <= DateTime.hour w <= 23
  /\ 0 <= DateTime.minute w <= 59
  /\ 0 <= DateTime.second w <= 59.
Proof.
  unfold DateTime.hour, DateTime.minute, DateTime.second.
  Z.to_euclidean_division_equations; lia.
Qed.

Lemma digit_cases (d : Z) :
  0 <= d <= 9 ->
  d = 0 \/ d = 1 \/ d = 2 \/ d = 3 \/ d = 4 \/ d = 5 \/ d = 6 \/ d = 7
  \/ d = 8 \/ d = 9.
Proof. lia. Qed.

Lemma digit_char_is_digit (d : Z) :
  0 <= d <= 9 -> DateTime.is_digit (DateTime.digit_char d) = true.
Proof.
  intros H. destruct (digit_cases d H) as [-> | H1]; [reflexivity |].
  repeat (destruct H1 as [-> | H1]; [reflexivity |]). subst; reflexivity.
Qed.

Lemma digit_char_value (d : Z) :
  0 <= d <= 9 -> Z.of_nat (nat_of_ascii (DateTime.digit_char d)) - 48 = d.
Proof.
  intros H. destruct (digit_cases d H) as [-> | H1]; [reflexivity |].
  repeat (destruct H1 as [-> | H1]; [reflexivity |]). subst; reflexivity.
Qed.

Lemma pad2_digits (n : Z) (rest : string) :
  0 <= n <= 99 ->
  exists c1 c2, DateTime.pad2 n rest = String c1 (String c2 rest)
                /\ DateTime.is_digit c1 = true /\ DateTime.is_digit c2 = true.
Proof.
  intros H. unfold DateTime.pad2. do 2 eexists. split; [reflexivity |].
  split; apply digit_char_is_digit; Z.to_euclidean_division_equations; lia.
Qed.

Lemma decimal_four_digits (y : Z) (rest : string) :
  1000 <= y <= 9999 ->
  exists c1 c2 c3 c4,
    DateTime.decimal 4 y rest = String c1 (String c2 (String c3 (String c4 rest)))
    /\ DateTime.is_digit c1 = true /\ DateTime.is_digit c2 = true
    /\ DateTime.is_digit c3 = true /\ DateTime.is_digit c4 = true.
Proof.
  intros H. cbn [DateTime.decimal].
  assert (H1 : (y <? 10) = false) by lia.
  assert (H2 : (y / 10 <? 10) = false)
    by (apply Z.ltb_ge; Z.to_euclidean_division_equations; lia).
  assert (H3 : (y / 10 / 10 <? 10) = false)
    by (apply Z.ltb_ge; Z.to_euclidean_division_equations; lia).
  assert (H4 : (y / 10 / 10 / 10 <? 10) = true)
    by (apply Z.ltb_lt; Z.to_euclidean_division_equations; lia).
  rewrite H1, H2, H3, H4. do 4 eexists. split; [reflexivity |].
  repeat split; apply digit_char_is_digit;
    Z.to_euclidean_division_equations; lia.
Qed.

(** From the year 1000 on, [strftime] has the shape [YYYY-MM-DD HH:MM:SS]. *)
Lemma strftime_format (w : Z) :
  YEAR1000_WALL <= w <= DateTime.MAX_WALL ->
  DateTime.is_timestamp_format (DateTime.strftime w) = true.
Proof.
  intros Hw.
  assert (Hr : DateTime.MIN_WALL <= w <= DateTime.MAX_WALL)
    by (unfold YEAR1000_WALL, DateTime.MIN_WALL in *; lia).
  destruct (civil_fields_in_range w Hr) as (_ & Hm & Hd).
  destruct (clock_fields_in_range w) as (Hh & Hn & Hs).
  pose proof (year_four_digits w Hw) as Hy.
  unfold DateTime.strftime.
  destruct (pad2_digits (DateTime.second w) EmptyString) as (s1 & s2 & -> & ? & ?);
    [lia |].
  destruct (pad2_digits (DateTime.minute w) (String ":" (String s1 (String s2 EmptyString))))
    as (n1 & n2 & -> & ? & ?); [lia |].
  match goal with |- context [DateTime.pad2 (DateTime.hour w) ?r] =>
    destruct (pad2_digits (DateTime.hour w) r) as (h1 & h2 & -> & ? & ?); [lia |] end.
  match goal with |- context [DateTime.pad2 (DateTime.day w) ?r] =>
    destruct (pad2_digits (DateTime.day w) r) as (d1 & d2 & -> & ? & ?); [lia |] end.
  match goal with |- context [DateTime.pad2 (DateTime.month w) ?r] =>
    destruct (pad2_digits (DateTime.month w) r) as (m1 & m2 & -> & ? & ?); [lia |] end.
  match goal with |- context [DateTime.decimal 4 (DateTime.year w) ?r] =>
    destruct (decimal_four_digits (DateTime.year w) r Hy)
      as (y1 & y2 & y3 & y4 & -> & ? & ? & ? & ?) end.
  unfold DateTime.is_timestamp_format. cbn [list_ascii_of_string forallb].
  repeat match goal with H : DateTime.is_digit _ = true |- _ => rewrite H; clear H end.
  reflexivity.
Qed.

(** ** Row normalisation *)

Section NormaliseFacts.

Variable off : Z -> Z.

Lemma decimal_nonempty (fuel : nat) (n : Z) (c : ascii) (rest : string) :
  exists c' rest', DateTime.decimal fuel n (String c rest) = String c' rest'.
Proof.
  revert n c rest. induction fuel as [| fuel IH]; intros n c rest.
  - cbn. eauto.
  - cbn. destruct (n <? 10); eauto.
Qed.

Lemma strftime_truthy (w : Z) : truthy (PStr (DateTime.strftime w)) = true.
Proof.
  unfold DateTime.strftime.
  match goal with |- context [DateTime.decimal 4 ?y (String ?c ?r)] =>
    destruct (decimal_nonempty 4 y c r) as (c' & r' & ->) end.
  reflexivity.
Qed.

(** A field that is absent or falsy is left alone. *)
Lemma normalize_field_skip (k : string) (r : row) :
  field_truthy r k = false -> normalize_field off k r = Ok r.
Proof.
  unfold normalize_field, field_truthy.
  destruct (r !! k) as [v |]; [| reflexivity].
  intros ->. reflexivity.
Qed.

(** A truthy field is converted if it is an integer, and is a type error
    if it is anything else. *)
Lemma normalize_field_truthy (k : string) (r : row) (v : pyval) :
  r !! k = Some v -> truthy v = true ->
  normalize_field off k r =
    match fromtimestamp off v with
    | Ok w => Ok (<[k := PStr (DateTime.strftime w)]> r)
    | Raise e => Raise e
    end.
Proof. unfold normalize_field. intros -> ->. reflexivity. Qed.

Lemma fromtimestamp_str (s : string) :
  fromtimestamp off (PStr s) = Raise TypeError.
Proof. reflexivity. Qed.

Lemma normalize_field_ok_inv (k : string) (r r' : row) :
  normalize_field off k r = Ok r' ->
  (field_truthy r k = false /\ r' = r)
  \/ (exists n w, r !! k = Some (PInt n) /\ n <> 0
                  /\ r' = <[k := PStr (DateTime.strftime w)]> r).
Proof.
  unfold normalize_field, field_truthy. destruct (r !! k) as [v |] eqn:Hk.
  - destruct (truthy v) eqn:Hv.
    + destruct v as [| n | s | d | c]; cbn [fromtimestamp]; try discriminate.
      destruct (_ || _); [discriminate |].
      destruct (DateTime.in_range _); [| discriminate].
      intros [= <-]. right. exists n, (n + off n). repeat split.
      cbn in Hv. intros ->. discriminate.
    + intros [= <-]. left. auto.
  - intros [= <-]. left. auto.
Qed.

End NormaliseFacts.

(** The rows used to exercise the statements. *)
Example stamped_row : row :=
  {[ "event_timestamp"%string := PInt 1700000000 ]}.

Example unset_row : row :=
  {[ "event_timestamp"%string := PInt 0 ]}.

(** C4, as the code behaves: a second pass over a row never converts a
    timestamp twice, but it is the identity only when both timestamp
    fields of the row were absent or falsy ([None], [0]); as soon as the
    first pass wrote a timestamp string, the second pass raises
    [TypeError]. *)
Theorem normalize_second_pass (off : Z -> Z) (r r' : row) :
  normalize off r = Ok r' ->
  if field_truthy r "event_timestamp" || field_truthy r "attribute_timestamp"
  then normalize off r' = Raise TypeError
  else r' = r /\ normalize off r' = Ok r'.
Proof.
  unfold normalize. intros H.
  destruct (normalize_field off "event_timestamp" r) as [r1 | e] eqn:H1;
    [| discriminate].
  apply normalize_field_ok_inv in H1 as [[He ->] | (n & w & Hn & Hn0 & ->)].
  - rewrite He. cbn [orb].
    pose proof H as H2.
    apply normalize_field_ok_inv in H2 as [[Ha ->] | (n & w & Hn & Hn0 & ->)].
    + rewrite Ha. split; [reflexivity |].
      rewrite (normalize_field_skip off _ _ He). exact H.
    + unfold field_truthy at 1. rewrite Hn. cbn [truthy].
      replace (negb (n =? 0)) with true by (symmetry; apply negb_true_iff; lia).
      rewrite normalize_field_skip.
      * erewrite normalize_field_truthy;
          [| apply lookup_insert_eq | apply strftime_truthy].
        reflexivity.
      * unfold field_truthy in *. rewrite lookup_insert_ne by discriminate.
        exact He.
  - unfold field_truthy at 1. rewrite Hn. cbn [truthy].
    replace (negb (n =? 0)) with true by (symmetry; apply negb_true_iff; lia).
    cbn [orb].
    assert (Hev : forall m : row,
               m !! "event_timestamp"%string = Some (PStr (DateTime.strftime w)) ->
               normalize_field off "event_timestamp" m = Raise TypeError).
    { intros m Hm. erewrite normalize_field_truthy;
        [| exact Hm | apply strftime_truthy]. reflexivity. }
    apply normalize_field_ok_inv in H as [[_ ->] | (n2 & w2 & _ & _ & ->)].
    + rewrite Hev; [reflexivity | apply lookup_insert_eq].
    + rewrite Hev; [reflexivity |].
      rewrite lookup_insert_ne by discriminate. apply lookup_insert_eq.
Qed.

Lemma normalize_second_pass_witness :
  let r' : row := <[ "event_timestamp"%string := PStr "2023-11-14 22:13:20" ]> stamped_row in
  normalize (fun _ => 0) stamped_row = Ok r'
  /\ normalize (fun _ => 0) r' = Raise TypeError.
Proof.
  split; [vm_compute; reflexivity |].
  apply (normalize_second_pass (fun _ => 0) stamped_row). vm_compute. reflexivity.
Defined.

(** C4, as stated, fails: normalising an already normalised row crashes. *)
Lemma normalize_not_idempotent :
  exists r' : row,
    normalize (fun _ => 0) stamped_row = Ok r'
    /\ r' !! "event_timestamp"%string = Some (PStr "2023-11-14 22:13:20")
    /\ normalize (fun _ => 0) r' = Raise TypeError
    /\ normalize (fun _ => 0) r' <> normalize (fun _ => 0) stamped_row.
Proof.
  eexists. split; [vm_compute; reflexivity |].
  split; [vm_compute; reflexivity |].
  split; [vm_compute; reflexivity |].
  vm_compute. discriminate.
Qed.

Lemma normalize_field_raw (off : Z -> Z) (k : string) (r : row) :
  raw_timestamp off (r !! k) ->
  exists r' : row,
    normalize_field off k r = Ok r'
    /\ (forall j, j <> k -> r' !! j = r !! j)
    /\ timestamp_normalised off (r !! k) (r' !! k).
Proof.
  unfold raw_timestamp, timestamp_normalised, normalize_field.
  destruct (r !! k) as [[| n | s | d | c] |] eqn:Hk; try contradiction.
  - intros _. exists r. cbn. auto.
  - intros [-> | [Hn Hw]].
    + exists r. cbn. auto.
    + cbn [truthy]. destruct (n =? 0) eqn:Hz.
      * exists r. cbn. apply Z.eqb_eq in Hz. subst. auto.
      * cbn [negb fromtimestamp].
        replace ((n <? INT64_MIN) || (INT64_MAX <? n)) with false
          by (symmetry; apply orb_false_iff; lia).
        replace (DateTime.in_range (n + off n)) with true.
        2:{ symmetry. unfold DateTime.in_range, YEAR1000_WALL, DateTime.MIN_WALL in *.
            apply andb_true_iff. lia. }
        eexists. split; [reflexivity |]. split.
        -- intros j Hj. apply lookup_insert_ne. congruence.
        -- rewrite lookup_insert_eq. split; [reflexivity |].
           apply strftime_format. exact Hw.
  - intros _. exists r. auto.
Qed.

(** C7, as the code behaves: on a raw row (timestamp fields missing,
    [None], or epoch integers that map to a four-digit year), normalisation
    succeeds; it turns each non-zero epoch into its local-time text of the
    shape [YYYY-MM-DD HH:MM:SS], leaves a timestamp that is missing,
    [None] or [0] as it is, and leaves every other field as it is. *)
Theorem normalize_raw_row (off : Z -> Z) (r : row) :
  raw_timestamp off (r !! "event_timestamp"%string) ->
  raw_timestamp off (r !! "attribute_timestamp"%string) ->
  exists r' : row,
    normalize off r = Ok r'
    /\ timestamp_normalised off (r !! "event_timestamp"%string)
                                (r' !! "event_timestamp"%string)
    /\ timestamp_normalised off (r !! "attribute_timestamp"%string)
                                (r' !! "attribute_timestamp"%string)
    /\ (forall k : string,
          k <> "event_timestamp"%string -> k <> "attribute_timestamp"%string ->
          r' !! k = r !! k).
Proof.
  intros He Ha. unfold normalize.
  destruct (normalize_field_raw off _ r He) as (r1 & -> & Hother1 & Hev).
  assert (Ha1 : r1 !! "attribute_timestamp"%string = r !! "attribute_timestamp"%string)
    by (apply Hother1; discriminate).
  rewrite <- Ha1 in Ha.
  destruct (normalize_field_raw off _ r1 Ha) as (r2 & -> & Hother2 & Hat).
  exists r2. split; [reflexivity |]. split; [| split].
  - rewrite Hother2 by discriminate. exact Hev.
  - rewrite <- Ha1. exact Hat.
  - intros k Hk1 Hk2. rewrite Hother2 by exact Hk2. apply Hother1. exact Hk1.
Qed.

Lemma normalize_raw_row_witness :
  exists r' : row,
    normalize (fun _ => 0) stamped_row = Ok r'
    /\ r' !! "event_timestamp"%string = Some (PStr "2023-11-14 22:13:20").
Proof.
  destruct (normalize_raw_row (fun _ => 0) stamped_row) as (r' & H & Hev & _).
  - vm_compute. right. repeat split; discriminate.
  - vm_compute. exact I.
  - exists r'. split; [exact H |].
    vm_compute in Hev. destruct Hev as [Hev _]. exact Hev.
Defined.

(** C7, as stated, fails: an epoch of [0] is an integer the query can
    deliver, and the loop leaves it an integer. *)
Lemma normalize_keeps_zero_epoch :
  raw_timestamp (fun _ => 0) (unset_row !! "event_timestamp"%string)
  /\ normalize (fun _ => 0) unset_row = Ok unset_row
  /\ unset_row !! "event_timestamp"%string = Some (PInt 0).
Proof.
  split; [vm_compute; auto |]. split; vm_compute; reflexivity.
Qed.

(** ** Running the monad *)

Ltac unfold_py :=
  unfold bind, ret, raise, lift, try_except, finally, log, emit in *.

(** A world with a reachable server holding one event, old by years, with
    two indicators, and an empty file system. *)
Example old_event : event_row :=
  {| e_id := 1; e_uuid := "5f0a"; e_info := "Campaign"; e_date := "2001-09-09";
     e_timestamp := 1000000000 |}.

Example old_indicator : attribute_row :=
  {| a_id := 10; a_event_id := 1; a_type := "md5"; a_category := "Payload delivery";
     a_value1 := "d41d8cd98f00b204e9800998ecf8427e"; a_timestamp := 1000000000;
     a_comment := None; a_to_ids := 1 |}.

Example older_indicator : attribute_row :=
  {| a_id := 11; a_event_id := 1; a_type := "domain"; a_category := "Network activity";
     a_value1 := "example.org"; a_timestamp := 999999000;
     a_comment := Some "seen once"%string; a_to_ids := 0 |}.

Example sample_config : config :=
  {| hours_lookback := 24;
     ioc_types := ["md5"; "domain"]%string;
     json_file := "misp_recent_iocs.json";
     cache_db := "ioc_cache.db";
     backup_db := Some "ioc_cache_yesterday.db"%string |}.

Example sample_env : env :=
  {| script_dir := "/opt/misp";
     cfg := sample_config;
     source := {| events := [old_event];
                  attributes := [old_indicator; older_indicator] |};
     utcoffset := fun _ => 0;
     now_query := 1700000000;
     now_import := 1700000005;
     connect_raises := None;
     ping := fun _ => true;
     query_faults := QueryOk;
     json_open_fails := false;
     copy_fails := false;
     remove_fails := false;
     sqlite_connect_fails := false;
     sqlite_ddl_fails := false;
     sqlite_insert_fails := None;
     sqlite_commit_fails := false |}.

Example fresh_state : state :=
  {| files := ∅; journal := []; pings := 0 |}.

(** ** Delta query: the connection guard *)

(** C10: without a connection, or with one that answers
    [is_connected()] with false, [fetch_recent_iocs] returns the empty
    list; it raises nothing, opens no cursor and executes no statement:
    all it leaves in the journal is its error record. *)
Theorem fetch_recent_iocs_not_connected (E : env) (conn : option connection)
    (hours : option Z) (s : state) :
  conn = None \/ ping E (pings s) = false ->
  exists s' : state,
    fetch_recent_iocs E conn hours s = (Ok [], s')
    /\ journal s' = journal s ++ [Log ERROR "Database connection is not established"]
    /\ files s' = files s.
Proof.
  intros H. unfold fetch_recent_iocs, is_connected. unfold_py.
  destruct conn as [c |].
  - destruct H as [H | H]; [discriminate |]. rewrite H. cbn.
    eexists. split; [reflexivity |]. split; reflexivity.
  - cbn. eexists. split; [reflexivity |]. split; reflexivity.
Qed.

Lemma fetch_recent_iocs_not_connected_witness :
  exists s' : state,
    fetch_recent_iocs sample_env None None fresh_state = (Ok [], s')
    /\ journal s' = [Log ERROR "Database connection is not established"].
Proof.
  destruct (fetch_recent_iocs_not_connected sample_env None None fresh_state)
    as (s' & H & Hj & _).
  - left. reflexivity.
  - exists s'. split; [exact H | exact Hj].
Defined.

(** ** Cache rotation *)

(** C6: when nothing is at the cache path, the rotation returns success
    and leaves every file as it was; when a file is there and the rotation
    returns success, the backup path holds what the cache path held and
    the cache path is gone; a failing copy (or a backup path that is the
    cache path itself) or a failing removal makes it return failure; and
    with no such failure it does return success. *)
Theorem backup_cache_db_rotation (E : env) (db_path : string)
    (backup_path : option string) (s : state) :
  let bk := default (path_join (script_dir E)
                       (default DEFAULT_BACKUP_DB (backup_db (cfg E))))
                    backup_path in
  let r := fst (backup_cache_db E db_path backup_path s) in
  let s' := snd (backup_cache_db E db_path backup_path s) in
  (files s !! db_path = None -> r = Ok true /\ files s' = files s)
  /\ (forall c, files s !! db_path = Some c -> r = Ok true ->
        files s' !! bk = Some c /\ files s' !! db_path = None)
  /\ (forall c, files s !! db_path = Some c ->
        copy_fails E = true \/ db_path = bk \/ remove_fails E = true ->
        r = Ok false)
  /\ (forall c, files s !! db_path = Some c ->
        copy_fails E = false -> db_path <> bk -> remove_fails E = false ->
        r = Ok true).
Proof.
  cbv zeta.
  set (bk := default _ backup_path).
  unfold backup_cache_db. fold bk. unfold path_exists, copy2, remove.
  unfold_py. cbn [files journal pings set_files add_event fst snd].
  destruct (files s !! db_path) as [c |] eqn:Hdb.
  - assert (Hsome : bool_decide (is_Some (Some c)) = true)
      by (apply bool_decide_eq_true; eauto).
    rewrite Hsome. cbv beta iota. rewrite Hdb.
    destruct (copy_fails E) eqn:Hcopy; cbn [orb].
    + cbn. repeat split; try discriminate; auto.
    + destruct (String.eqb db_path bk) eqn:Heq.
      * apply String.eqb_eq in Heq. cbn.
        repeat split; try discriminate; auto. intros; contradiction.
      * apply String.eqb_neq in Heq.
        cbn [files journal pings set_files add_event fst snd].
        rewrite lookup_insert_ne by congruence. rewrite Hdb.
        destruct (remove_fails E) eqn:Hrm; cbn.
        -- repeat split; try discriminate; auto.
        -- split; [discriminate |]. split.
           ++ intros c' [= <-] _. split.
              ** rewrite lookup_delete_ne by congruence. apply lookup_insert_eq.
              ** apply lookup_delete_eq.
           ++ split; [| auto]. intros c' _ [H | [H | H]]; congruence.
  - assert (Hnone : bool_decide (is_Some (@None content)) = false)
      by (apply bool_decide_eq_false; intros [? ?]; discriminate).
    rewrite Hnone. cbn. repeat split; try discriminate; auto.
Qed.

(** ** What the stages can raise *)

Create HintDb mild.

Lemma mild_ret {A} (a : A) : mild (ret a).
Proof. intros s. exact I. Qed.

Lemma mild_raise {A} (e : exception) : mild (@raise A (Exc e)).
Proof. intros s. exact I. Qed.

Lemma mild_lift {A} (r : fallible A) : mild (lift r).
Proof. intros s. destruct r; exact I. Qed.

Lemma mild_emit (ev : event) : mild (emit ev).
Proof. intros s. exact I. Qed.

Lemma mild_log (lvl : level) (msg : string) : mild (log lvl msg).
Proof. intros s. exact I. Qed.

Lemma mild_bind {A B} (m : M A) (k : A -> M B) :
  mild m -> (forall a, mild (k a)) -> mild (bind m k).
Proof.
  intros Hm Hk s. unfold bind. specialize (Hm s).
  destruct (m s) as [[a | e] s1]; cbn in *.
  - apply Hk.
  - exact Hm.
Qed.

Lemma mild_try_except {A} (body : M A) (catches : exn -> bool)
    (handler : exn -> M A) :
  mild body -> (forall e, mild (handler e)) ->
  mild (try_except body catches handler).
Proof.
  intros Hb Hh s. unfold try_except. specialize (Hb s).
  destruct (body s) as [[a | e] s1]; cbn in *; [exact I |].
  destruct (catches e); [apply Hh | exact Hb].
Qed.

Lemma mild_finally {A} (body : M A) (cleanup : M unit) :
  mild body -> mild cleanup -> mild (finally body cleanup).
Proof.
  intros Hb Hc s. unfold finally. specialize (Hb s).
  destruct (body s) as [r s1]. specialize (Hc s1).
  destruct (cleanup s1) as [[[] | e] s2]; cbn in *; assumption.
Qed.

Lemma mild_if {A} (b : bool) (m1 m2 : M A) :
  mild m1 -> mild m2 -> mild (if b then m1 else m2).
Proof. destruct b; auto. Qed.

#[local] Hint Resolve mild_ret mild_raise mild_lift mild_emit mild_log
  mild_bind mild_try_except mild_finally mild_if : mild.

(** An [except Exception] clause around a mild body leaves nothing to
    propagate. *)
Lemma guarded_returns (body : M unit) (handler : exn -> M unit) :
  mild body ->
  (forall e s, is_exception e = true -> exists s', handler e s = (Ok tt, s')) ->
  forall s, exists s', try_except body is_exception handler s = (Ok tt, s').
Proof.
  intros Hb Hh s. unfold try_except. specialize (Hb s).
  destruct (body s) as [[[] | [e | code]] s1]; cbn in *.
  - eauto.
  - apply Hh. reflexivity.
  - contradiction.
Qed.

Section StageFacts.

Variable E : env.

Lemma mild_is_connected (c : connection) : mild (is_connected E c).
Proof. intros s. exact I. Qed.

Lemma mild_mysql_connect : mild (mysql_connect E).
Proof. unfold mysql_connect. destruct (connect_raises E); auto with mild. Qed.

Lemma mild_connect_to_db : mild (connect_to_db E).
Proof.
  unfold connect_to_db.
  auto 10 using mild_is_connected, mild_mysql_connect with mild.
Qed.

Lemma mild_on_query_error (iocs : list row) (e : exception) :
  mild (on_query_error iocs (Exc e)).
Proof. unfold on_query_error. auto with mild. Qed.

Lemma mild_cursor_execute (types : list string) (p1 p2 : string) :
  mild (cursor_execute E types p1 p2).
Proof.
  unfold cursor_execute. apply mild_bind; [auto with mild |].
  intros _. destruct (query_faults E), types; auto with mild.
Qed.

Lemma mild_fetch_recent_iocs (conn : option connection) (hours : option Z) :
  mild (fetch_recent_iocs E conn hours).
Proof.
  unfold fetch_recent_iocs. apply mild_bind.
  - destruct conn; auto using mild_is_connected with mild.
  - intros up. destruct up; cbn [negb]; [| auto with mild].
    assert (Hmain : forall ts : string,
               mild (fun s =>
                 match cursor_execute E (ioc_types (cfg E)) ts ts s with
                 | (Raise e, s') => on_query_error [] e s'
                 | (Ok stream, s') =>
                     match result_loop (utcoffset E) stream [] with
                     | (iocs, None) =>
                         (do! log INFO "Retrieved IOCs" in ret iocs) s'
                     | (iocs, Some e) => on_query_error iocs (Exc e) s'
                     end
                 end)).
    { intros ts s. pose proof (mild_cursor_execute (ioc_types (cfg E)) ts ts s) as Hx.
      destruct (cursor_execute E (ioc_types (cfg E)) ts ts s) as [[stream | [e | code]] s1];
        cbn in Hx |- *.
      - destruct (result_loop (utcoffset E) stream []) as [iocs [e |]].
        + apply mild_on_query_error.
        + exact I.
      - apply mild_on_query_error.
      - contradiction. }
    destruct (query_faults E);
      auto 10 using mild_on_query_error with mild.
Qed.

End StageFacts.

Section WriterFacts.

Variable E : env.

Lemma mild_open_write (path : string) : mild (open_write E path).
Proof. intros s. unfold open_write. destruct (json_open_fails E); exact I. Qed.

Lemma mild_json_dump (iocs : list row) (path : string) :
  mild (json_dump iocs path).
Proof. intros s. unfold json_dump. destruct (forallb _ _); exact I. Qed.

Lemma log_returns (lvl : level) (msg : string) (s : state) :
  exists s', log lvl msg s = (Ok tt, s').
Proof. eexists. reflexivity. Qed.

(** The snapshot writer reports its failures in the log only. *)
Lemma save_to_json_returns (iocs : list row) (output_file : option string)
    (s : state) :
  exists s', save_to_json E iocs output_file s = (Ok tt, s').
Proof.
  unfold save_to_json. apply guarded_returns.
  - auto using mild_open_write, mild_json_dump with mild.
  - intros e s0 _. apply log_returns.
Qed.

Lemma mild_copy2 (src dst : string) : mild (copy2 E src dst).
Proof.
  intros s. unfold copy2. destruct (files s !! src); [| exact I].
  destruct (_ || _); exact I.
Qed.

Lemma mild_remove (path : string) : mild (remove E path).
Proof.
  intros s. unfold remove. destruct (files s !! path); [| exact I].
  destruct (remove_fails E); exact I.
Qed.

Lemma mild_path_exists (path : string) : mild (path_exists path).
Proof. intros s. exact I. Qed.

(** The rotation always returns its verdict. *)
Lemma backup_cache_db_returns (db_path : string) (backup_path : option string)
    (s : state) :
  exists b s', backup_cache_db E db_path backup_path s = (Ok b, s').
Proof.
  unfold backup_cache_db. unfold try_except.
  match goal with |- context [bind ?m ?k s] =>
    assert (Hm : mild (bind m k)) end.
  { apply mild_bind; [apply mild_path_exists |]. intros present.
    apply mild_bind; [| auto with mild].
    destruct present; auto 10 using mild_copy2, mild_remove with mild. }
  specialize (Hm s).
  match goal with |- context [bind ?m ?k s] =>
    destruct (bind m k s) as [[b | [e | code]] s1] end; cbn in *.
  - eauto.
  - eauto.
  - contradiction.
Qed.

Lemma mild_backup_cache_db (db_path : string) (backup_path : option string) :
  mild (backup_cache_db E db_path backup_path).
Proof.
  intros s.
  destruct (backup_cache_db_returns db_path backup_path s) as (b & s' & ->).
  exact I.
Qed.

Lemma mild_sqlite_apply (c : sqlconn) (d : database) (t : bool) :
  mild (sqlite_apply c d t).
Proof. intros s. exact I. Qed.

Lemma mild_sqlite_ddl (stmt : database -> fallible database) (c : sqlconn) :
  mild (sqlite_ddl E stmt c).
Proof.
  unfold sqlite_ddl. destruct (sqlite_ddl_fails E); [auto with mild |].
  destruct (sc_work c); auto using mild_sqlite_apply with mild.
Qed.

Lemma mild_sqlite_insert (i : nat) (vals : list pyval) (c : sqlconn) :
  mild (sqlite_insert E i vals c).
Proof.
  unfold sqlite_insert. destruct (bool_decide _); [auto with mild |].
  destruct (sc_work c); auto using mild_sqlite_apply with mild.
Qed.

Lemma mild_insert_all (ct : string) (iocs : list row) :
  forall (i : nat) (c : sqlconn), mild (insert_all E ct i iocs c).
Proof.
  induction iocs as [| ioc rest IH]; intros i c; cbn [insert_all].
  - auto with mild.
  - apply mild_bind; [apply mild_sqlite_insert | intros c'; apply IH].
Qed.

Lemma mild_sqlite_commit (c : sqlconn) : mild (sqlite_commit E c).
Proof.
  intros s. unfold sqlite_commit. destruct (sqlite_commit_fails E); [exact I |].
  destruct (sc_in_txn c), (sc_work c); exact I.
Qed.

Lemma mild_cache_batch (iocs : list row) (conn : sqlconn) :
  mild (cache_batch E iocs conn).
Proof.
  unfold cache_batch.
  repeat (apply mild_bind; [apply mild_sqlite_ddl | intros ?]).
  apply mild_bind; [apply mild_lift | intros now].
  apply mild_bind; [apply mild_insert_all | intros ?].
  apply mild_bind; [apply mild_sqlite_commit | intros ?].
  apply mild_log.
Qed.

Lemma on_cache_error_returns (e : exn) (s : state) :
  is_exception e = true -> exists s', on_cache_error e s = (Ok tt, s').
Proof. unfold on_cache_error. intros ->. apply log_returns. Qed.

(** The cache writer reports its failures in the log only. *)
Lemma save_to_cache_db_returns (iocs : list row) (db_path : option string)
    (s : state) :
  exists s', save_to_cache_db E iocs db_path s = (Ok tt, s').
Proof.
  unfold save_to_cache_db.
  set (p := default _ db_path). set (bk := path_join _ _).
  unfold bind at 1.
  destruct (backup_cache_db_returns p (Some bk) s) as (b & s1 & ->).
  unfold bind at 1.
  assert (Hw : exists s2,
             (if b then ret tt
              else log WARNING "Proceeding with database update without backup") s1
             = (Ok tt, s2)) by (destruct b; eexists; reflexivity).
  destruct Hw as (s2 & ->).
  unfold sqlite_connect at 1.
  destruct (sqlite_connect_fails E).
  - apply on_cache_error_returns. reflexivity.
  - cbv zeta. unfold finally, sqlite_close, ret.
    match goal with |- context [try_except ?b ?c ?h ?st] =>
      destruct (guarded_returns b h (mild_cache_batch iocs _)
                  (fun e s => on_cache_error_returns e s) st) as (s3 & ->) end.
    eauto.
Qed.

End WriterFacts.

(** ** Orchestration and the exit status *)

Section MainFacts.

Variable E : env.



Lemma release_returns (c : option connection) (s : state) :
  exists s', release E c s = (Ok tt, s')
             /\ files s' = files s
             /\ exists more, journal s' = journal s ++ more.
Proof.
  unfold release, is_connected. unfold_py. destruct c as [c |].
  - destruct (ping E (pings s)); cbn.
    + eexists. split; [reflexivity |]. split; [reflexivity |].
      cbn. rewrite <- app_assoc. eauto.
    + eexists. split; [reflexivity |]. split; [reflexivity |].
      exists []. rewrite app_nil_r. reflexivity.
  - eexists. split; [reflexivity |]. split; [reflexivity |].
    exists []. rewrite app_nil_r. reflexivity.
Qed.

Lemma on_unexpected_returns (e : exn) (s : state) :
  is_exception e = true -> exists s', on_unexpected e s = (Ok tt, s').
Proof. unfold on_unexpected. intros ->. eexists. reflexivity. Qed.

Lemma mild_main_body (c : connection) : mild (main_body E (Some c)).
Proof.
  unfold main_body. apply mild_bind; [apply mild_log | intros _].
  apply mild_bind; [apply mild_fetch_recent_iocs | intros iocs].
  destruct iocs as [| i l]; [apply mild_log |].
  cbv zeta. intros s. unfold bind.
  destruct (save_to_json_returns E (i :: l)
              (Some (path_join (script_dir E) (json_file (cfg E)))) s)
    as (s1 & ->).
  destruct (save_to_cache_db_returns E (i :: l)
              (Some (path_join (script_dir E) (cache_db (cfg E)))) s1)
    as (s2 & ->).
  exact I.
Qed.

Lemma main_connected (s s1 : state) (c : connection) :
  connect_to_db E s = (Ok (Some c), s1) ->
  exists s2 s3,
    try_except (main_body E (Some c)) is_exception on_unexpected s1 = (Ok tt, s2)
    /\ release E (Some c) s2 = (Ok tt, s3)
    /\ main E s = (Ok tt, s3).
Proof.
  intros Hc.
  destruct (guarded_returns (main_body E (Some c)) on_unexpected (mild_main_body c)
              on_unexpected_returns s1) as (s2 & H2).
  destruct (release_returns (Some c) s2) as (s3 & H3 & _).
  exists s2, s3. split; [exact H2 |]. split; [exact H3 |].
  unfold main. rewrite Hc. unfold finally.
  rewrite H2, H3. reflexivity.
Qed.

End MainFacts.

Section ExitStatus.

Variable E : env.



Lemma run_connected (s : state) (c : connection) :
  fst (connect_to_db E s) = Ok (Some c) -> fst (run E s) = 0.
Proof.
  intros Hc. destruct (connect_to_db E s) as [r s1] eqn:Hcs. cbn in Hc. subst r.
  destruct (main_connected E s s1 c Hcs) as (s2 & s3 & _ & _ & Hmain).
  unfold run. rewrite Hmain. reflexivity.
Qed.


End ExitStatus.





(** ** Delta query: failures of the query *)

Section QueryFacts.

Variable E : env.

Lemma result_loop_app (off : Z -> Z) (l1 l2 : list (fallible row)) :
  forall acc,
    result_loop off (l1 ++ l2) acc =
      match result_loop off l1 acc with
      | (acc', None) => result_loop off l2 acc'
      | stopped => stopped
      end.
Proof.
  induction l1 as [| [r | e] l1 IH]; intros acc; cbn; [reflexivity | | reflexivity].
  destruct (normalize off r); [apply IH | reflexivity].
Qed.

Lemma result_loop_length (off : Z -> Z) (rows : list row) :
  forall acc iocs,
    result_loop off (map Ok rows) acc = (iocs, None) ->
    length iocs = (length acc + length rows)%nat.
Proof.
  induction rows as [| r rows IH]; intros acc iocs; cbn.
  - intros [= <-]. lia.
  - destruct (normalize off r) as [r' | e]; [| discriminate].
    intros H. apply IH in H. rewrite H, length_app. cbn. lia.
Qed.

(** What [fetch_recent_iocs] does once past the connection guard and the
    computation of the cutoff. *)
Lemma fetch_recent_iocs_connected (hours : option Z) (s : state) (ts : string) :
  ping E (pings s) = true ->
  lookback_timestamp E (default (hours_lookback (cfg E)) hours) = Ok ts ->
  fetch_recent_iocs E (Some Conn) hours s =
    let failed := Log ERROR "Error querying MISP database" in
    let types := ioc_types (cfg E) in
    let s1 := add_event (Executed (map PStr types ++ [PStr ts; PStr ts]))
                (add_event CursorOpened (add_ping s)) in
    let refused := (Ok [], add_event CursorClosed (add_event failed s1)) in
    let streamed :=
      match types with
      | [] => refused
      | _ :: _ =>
          match result_loop (utcoffset E)
                  (cursor_stream E (MySQL.result_set (source E) types ts ts)) [] with
          | (iocs, None) =>
              (Ok iocs, add_event CursorClosed
                          (add_event (Log INFO "Retrieved IOCs") s1))
          | (iocs, Some MySQLError) =>
              (Ok iocs, add_event CursorClosed (add_event failed s1))
          | (iocs, Some e) => (Raise (Exc e), add_event CursorClosed s1)
          end
      end in
    match query_faults E with
    | CursorFails => (Ok [], add_event failed (add_ping s))
    | ExecuteFails => refused
    | _ => streamed
    end.
Proof.
  intros Hping Hts. unfold fetch_recent_iocs, is_connected.
  unfold bind at 1. rewrite Hping. cbn [negb]. rewrite Hts.
  unfold cursor_execute, on_query_error. unfold_py.
  cbn [files journal pings set_files add_event add_ping fst snd].
  destruct (query_faults E) eqn:Hq; cbn; try reflexivity;
    (destruct (ioc_types (cfg E)) as [| t types]; [reflexivity |];
     destruct (result_loop _ _ _) as [iocs [[] |]]; reflexivity).
Qed.

End QueryFacts.

(** A reachable server with one event touched inside the last day and two
    of its indicators, and the same world with the connection breaking
    after the first row has been read. *)
Example recent_event : event_row :=
  {| e_id := 7; e_uuid := "61b2"; e_info := "Phishing wave"; e_date := "2023-11-14";
     e_timestamp := 1699999500 |}.

Example recent_indicator : attribute_row :=
  {| a_id := 70; a_event_id := 7; a_type := "domain"; a_category := "Network activity";
     a_value1 := "login.example.net"; a_timestamp := 1699999000;
     a_comment := None; a_to_ids := 1 |}.

Example second_indicator : attribute_row :=
  {| a_id := 71; a_event_id := 7; a_type := "md5"; a_category := "Payload delivery";
     a_value1 := "9e107d9d372bb6826bd81d3542a419d6"; a_timestamp := 1699998000;
     a_comment := None; a_to_ids := 1 |}.

Example recent_source : source_db :=
  {| events := [recent_event];
     attributes := [recent_indicator; second_indicator] |}.

Example broken_stream_env : env :=
  {| script_dir := script_dir sample_env;
     cfg := cfg sample_env;
     source := recent_source;
     utcoffset := utcoffset sample_env;
     now_query := now_query sample_env;
     now_import := now_import sample_env;
     connect_raises := None;
     ping := ping sample_env;
     query_faults := FetchFails 1;
     json_open_fails := false;
     copy_fails := false;
     remove_fails := false;
     sqlite_connect_fails := false;
     sqlite_ddl_fails := false;
     sqlite_insert_fails := None;
     sqlite_commit_fails := false |}.

Example refused_query_env : env :=
  {| script_dir := script_dir sample_env;
     cfg := cfg sample_env;
     source := recent_source;
     utcoffset := utcoffset sample_env;
     now_query := now_query sample_env;
     now_import := now_import sample_env;
     connect_raises := None;
     ping := ping sample_env;
     query_faults := ExecuteFails;
     json_open_fails := false;
     copy_fails := false;
     remove_fails := false;
     sqlite_connect_fails := false;
     sqlite_ddl_fails := false;
     sqlite_insert_fails := None;
     sqlite_commit_fails := false |}.

(** C3, as the code behaves: a connector error raised when the cursor is
    created or the statement is executed (an empty type list makes the
    statement invalid) gives the empty list; a connector error raised
    while the rows are read gives the rows normalised until then; either
    way the error is logged, no file is touched, nothing is raised, and a
    run that had its connection exits with status 0. *)
Theorem fetch_recent_iocs_query_failure (E : env) (hours : option Z)
    (s : state) (ts : string) :
  ping E (pings s) = true ->
  lookback_timestamp E (default (hours_lookback (cfg E)) hours) = Ok ts ->
  let failed := Log ERROR "Error querying MISP database" in
  let rows := MySQL.result_set (source E) (ioc_types (cfg E)) ts ts in
  let r := fst (fetch_recent_iocs E (Some Conn) hours s) in
  let s' := snd (fetch_recent_iocs E (Some Conn) hours s) in
  (query_faults E = CursorFails \/ query_faults E = ExecuteFails
   \/ ioc_types (cfg E) = [] ->
   r = Ok [] /\ In failed (journal s') /\ files s' = files s)
  /\ (forall k iocs,
        query_faults E = FetchFails k -> ioc_types (cfg E) <> [] ->
        (k <= length rows)%nat ->
        result_loop (utcoffset E) (map Ok (take k rows)) [] = (iocs, None) ->
        r = Ok iocs /\ length iocs = k /\ In failed (journal s')
        /\ files s' = files s)
  /\ (forall s0 c, fst (connect_to_db E s0) = Ok (Some c) -> fst (run E s0) = 0).
Proof.
  intros Hping Hts. cbv zeta.
  rewrite (fetch_recent_iocs_connected E hours s ts Hping Hts). cbv zeta.
  split; [| split].
  - intros [Hq | [Hq | Hty]].
    + rewrite Hq. cbn. repeat split. apply in_or_app. right. left. reflexivity.
    + rewrite Hq. cbn. repeat split.
      apply in_or_app. left. apply in_or_app. right. left. reflexivity.
    + rewrite Hty. destruct (query_faults E); cbn; repeat split;
        repeat (try (apply in_or_app; right; left; reflexivity);
                apply in_or_app; left).
  - intros k iocs Hq Hty Hk Hloop. rewrite Hq.
    destruct (ioc_types (cfg E)) as [| t types] eqn:Htypes; [congruence |].
    unfold cursor_stream. rewrite Hq.
    apply Nat.leb_le in Hk. rewrite Hk.
    rewrite result_loop_app, Hloop. cbn.
    repeat split.
    + apply result_loop_length in Hloop. rewrite Hloop. cbn.
      rewrite length_take. apply Nat.leb_le in Hk. lia.
    + apply in_or_app. left. apply in_or_app. right. left. reflexivity.
  - intros s0 c. apply run_connected.
Qed.

Lemma fetch_recent_iocs_query_failure_witness :
  fetch_recent_iocs refused_query_env (Some Conn) None fresh_state
  = (Ok [], snd (fetch_recent_iocs refused_query_env (Some Conn) None fresh_state)).
Proof.
  destruct (fetch_recent_iocs_query_failure refused_query_env None fresh_state
              "2023-11-13 22:13:20") as [H _].
  - reflexivity.
  - vm_compute. reflexivity.
  - cbv zeta in H. destruct H as [H _]; [right; left; reflexivity |].
    destruct (fetch_recent_iocs refused_query_env (Some Conn) None fresh_state)
      as [r s']. cbn in H |- *. rewrite H. reflexivity.
Defined.

(** C3, as stated, fails: the connection breaks while the second row is
    read, and the first row is returned, not the empty list. *)
Lemma fetch_recent_iocs_partial_result :
  exists (ioc : row) (s' : state),
    fetch_recent_iocs broken_stream_env (Some Conn) None fresh_state
    = (Ok [ioc], s')
    /\ ioc !! "attribute_id"%string = Some (PInt 70)
    /\ In (Log ERROR "Error querying MISP database") (journal s').
Proof.
  eexists. eexists. split; [vm_compute; reflexivity |].
  split; [vm_compute; reflexivity |].
  cbn. right. right. left. reflexivity.
Qed.

(** ** Delta query: the window *)

Lemma leading_digits_of_year (y : Z) (rest : string) :
  1 <= y <= 9999 ->
  MySQL.leading_digits (DateTime.decimal 4 y (String "-" rest)) 0 = y.
Proof.
  intros Hy. cbn [DateTime.decimal].
  assert (Hd : forall d acc tail, 0 <= d <= 9 ->
             MySQL.leading_digits (String (DateTime.digit_char d) tail) acc
             = MySQL.leading_digits tail (10 * acc + d)).
  { intros d acc tail Hd. cbn [MySQL.leading_digits].
    rewrite digit_char_is_digit, digit_char_value by exact Hd. reflexivity. }
  assert (Hstop : forall acc, MySQL.leading_digits (String "-" rest) acc = acc)
    by reflexivity.
  assert (Hm : forall n, 0 <= n mod 10 <= 9)
    by (intros n; Z.to_euclidean_division_equations; lia).
  destruct (y <? 10) eqn:H1.
  { rewrite Hd, Hstop by apply Hm. Z.to_euclidean_division_equations; lia. }
  destruct (y / 10 <? 10) eqn:H2.
  { rewrite !Hd, Hstop by apply Hm. Z.to_euclidean_division_equations; lia. }
  destruct (y / 10 / 10 <? 10) eqn:H3.
  { rewrite !Hd, Hstop by apply Hm. Z.to_euclidean_division_equations; lia. }
  assert (H4 : (y / 10 / 10 / 10 <? 10) = true)
    by (apply Z.ltb_lt; Z.to_euclidean_division_equations; lia).
  rewrite H4. rewrite !Hd, Hstop by apply Hm.
  Z.to_euclidean_division_equations; lia.
Qed.

(** The server reads the cutoff string as the number of its year. *)
Lemma number_of_strftime (w : Z) :
  DateTime.MIN_WALL <= w <= DateTime.MAX_WALL ->
  MySQL.number_of_string (DateTime.strftime w) = DateTime.year w.
Proof.
  intros Hw. unfold MySQL.number_of_string, DateTime.strftime.
  apply leading_digits_of_year. apply civil_fields_in_range. exact Hw.
Qed.

(** Whatever the clock and the lookback, every joined row of a listed
    type whose attribute epoch is 9999 or more passes the [WHERE] clause
    built by [fetch_recent_iocs]. *)
Lemma window_filter_is_vacuous (E : env) (hours : Z) (ts : string)
    (ea : event_row * attribute_row) :
  lookback_timestamp E hours = Ok ts ->
  a_type (snd ea) ∈ ioc_types (cfg E) ->
  9999 <= a_timestamp (snd ea) ->
  MySQL.where_clause (ioc_types (cfg E)) ts ts ea = true.
Proof.
  unfold lookback_timestamp. intros Hts Hty Hn.
  destruct (datetime_now E (now_query E)) as [now | e]; [| discriminate].
  destruct (DateTime.in_range (now - hours * 3600)) eqn:Hr; [| discriminate].
  injection Hts as <-.
  unfold DateTime.in_range in Hr. apply andb_true_iff in Hr as [Hlo Hhi].
  apply Z.leb_le in Hlo, Hhi.
  unfold MySQL.where_clause. rewrite bool_decide_eq_true_2 by exact Hty.
  cbn [andb]. apply orb_true_iff. left.
  unfold MySQL.int_ge_string. rewrite number_of_strftime by lia.
  apply Z.leb_le.
  pose proof (civil_fields_in_range (now - hours * 3600) (conj Hlo Hhi)) as (Hy & _).
  lia.
Qed.

(** C1 on a concrete world: the clock reads 2023-11-14 22:13:20, the
    lookback is 24 hours, and the only event and its two indicators were
    last modified in September 2001; both indicators are returned
    although neither modification time reaches the cutoff. *)
Theorem fetch_recent_iocs_returns_stale_rows :
  let cutoff := now_query sample_env - 3600 * hours_lookback (cfg sample_env) in
  e_timestamp old_event < cutoff
  /\ a_timestamp old_indicator < cutoff
  /\ a_timestamp older_indicator < cutoff
  /\ exists (ioc1 ioc2 : row) (s' : state),
       fetch_recent_iocs sample_env (Some Conn) None fresh_state
       = (Ok [ioc1; ioc2], s')
       /\ ioc1 !! "attribute_id"%string = Some (PInt 10)
       /\ ioc1 !! "attribute_timestamp"%string = Some (PStr "2001-09-09 01:46:40")
       /\ ioc1 !! "event_timestamp"%string = Some (PStr "2001-09-09 01:46:40")
       /\ ioc2 !! "attribute_id"%string = Some (PInt 11)
       /\ In (Executed [PStr "md5"; PStr "domain";
                        PStr "2023-11-13 22:13:20"; PStr "2023-11-13 22:13:20"])
             (journal s').
Proof.
  cbv zeta. split; [vm_compute; reflexivity |].
  split; [vm_compute; reflexivity |]. split; [vm_compute; reflexivity |].
  eexists. eexists. eexists. split; [vm_compute; reflexivity |].
  repeat (split; [vm_compute; reflexivity |]).
  cbn. right. left. reflexivity.
Qed.

(** ** The cache store *)

Lemma bind_params_app (l1 l2 : list pyval) :
  SQLite.bind_params (l1 ++ l2) =
    match SQLite.bind_params l1, SQLite.bind_params l2 with
    | Ok c1, Ok c2 => Ok (c1 ++ c2)
    | Raise e, _ => Raise e
    | Ok _, Raise e => Raise e
    end.
Proof.
  induction l1 as [| v l1 IH]; cbn.
  - destruct (SQLite.bind_params l2); reflexivity.
  - rewrite IH. destruct (SQLite.bind_param v); [| reflexivity].
    destruct (SQLite.bind_params l1); [| reflexivity].
    destruct (SQLite.bind_params l2); reflexivity.
Qed.

Lemma bind_params_length (l : list pyval) (cells : list sqlval) :
  SQLite.bind_params l = Ok cells -> length cells = length l.
Proof.
  revert cells. induction l as [| v l IH]; cbn; intros cells.
  - intros [= <-]. reflexivity.
  - destruct (SQLite.bind_param v); [| discriminate].
    destruct (SQLite.bind_params l) as [cs |]; [| discriminate].
    intros [= <-]. cbn. f_equal. apply IH. reflexivity.
Qed.

(** Whether a record binds does not depend on the import time. *)
Lemma binds_false (ct : string) (ioc : row) :
  binds ioc = false ->
  exists e, SQLite.bind_params (insert_values ct ioc) = Raise e.
Proof.
  unfold binds.
  change (insert_values EmptyString ioc)
    with (removelast (insert_values EmptyString ioc) ++ [PStr EmptyString]).
  change (insert_values ct ioc)
    with (removelast (insert_values EmptyString ioc) ++ [PStr ct]).
  rewrite !bind_params_app.
  destruct (SQLite.bind_params (removelast _)); cbn; [discriminate | eauto].
Qed.

Lemma binds_true (ct : string) (ioc : row) :
  binds ioc = true ->
  exists cells, SQLite.bind_params (insert_values ct ioc) = Ok cells.
Proof.
  unfold binds.
  change (insert_values EmptyString ioc)
    with (removelast (insert_values EmptyString ioc) ++ [PStr EmptyString]).
  change (insert_values ct ioc)
    with (removelast (insert_values EmptyString ioc) ++ [PStr ct]).
  rewrite !bind_params_app.
  destruct (SQLite.bind_params (removelast _)); cbn; [eauto | discriminate].
Qed.

Lemma create_table_rows (d d' : database) :
  SQLite.create_table d = Ok d' ->
  table_rows d' = table_rows d /\ misp_iocs d' <> None
  /\ (misp_iocs d = None ->
      misp_iocs d' = Some {| columns := SQLite.CACHE_COLUMNS;
                             tbl_rows := []; autoinc := 0 |}).
Proof.
  unfold SQLite.create_table, table_rows.
  destruct (misp_iocs d) as [t |] eqn:Ht; intros [= <-]; cbn.
  - rewrite Ht. repeat split; congruence.
  - repeat split; congruence.
Qed.

Lemma create_index_table (name col : string) (d d' : database) :
  SQLite.create_index name col d = Ok d' -> misp_iocs d' = misp_iocs d.
Proof.
  unfold SQLite.create_index. destruct (bool_decide _); [congruence |].
  destruct (misp_iocs d) as [t |]; [| discriminate].
  destruct (bool_decide _); [| discriminate]. intros [= <-]. reflexivity.
Qed.

Lemma create_index_rows (name col : string) (d d' : database) :
  SQLite.create_index name col d = Ok d' -> table_rows d' = table_rows d.
Proof.
  intros H. unfold table_rows. rewrite (create_index_table _ _ _ _ H).
  reflexivity.
Qed.

Lemma schema_rows (d d' : database) :
  schema d = Ok d' ->
  table_rows d' = table_rows d /\ misp_iocs d' <> None
  /\ (misp_iocs d = None ->
      misp_iocs d' = Some {| columns := SQLite.CACHE_COLUMNS;
                             tbl_rows := []; autoinc := 0 |}).
Proof.
  unfold schema.
  destruct (SQLite.create_table d) as [d1 |] eqn:H1; [| discriminate].
  destruct (SQLite.create_index _ _ d1) as [d2 |] eqn:H2; [| discriminate].
  destruct (SQLite.create_index _ _ d2) as [d3 |] eqn:H3; [| discriminate].
  intros H4.
  apply create_table_rows in H1 as (Hr & Hn & Hf).
  pose proof (create_index_table _ _ _ _ H2) as E2.
  pose proof (create_index_table _ _ _ _ H3) as E3.
  pose proof (create_index_table _ _ _ _ H4) as E4.
  unfold table_rows in *. rewrite E4, E3, E2.
  repeat split; auto.
Qed.

(** The cells of the row an [INSERT] builds. *)
Lemma lookup_column_map (f : string -> sqlval) (cols : list string) (c : string) :
  (list_to_map (map (fun c => (c, f c)) cols) : gmap string sqlval) !! c
  = if bool_decide (c ∈ cols) then Some (f c) else None.
Proof.
  induction cols as [| c0 cols IH]; cbn.
  - rewrite lookup_empty. rewrite bool_decide_eq_false_2; [reflexivity |].
    apply not_elem_of_nil.
  - destruct (decide (c0 = c)) as [-> | Hne].
    + rewrite lookup_insert_eq. rewrite bool_decide_eq_true_2; [reflexivity |].
      apply list_elem_of_here.
    + rewrite lookup_insert_ne by exact Hne. rewrite IH.
      destruct (bool_decide (c ∈ cols)) eqn:Hin.
      * apply bool_decide_eq_true in Hin.
        rewrite bool_decide_eq_true_2; [reflexivity |].
        apply list_elem_of_further. exact Hin.
      * apply bool_decide_eq_false in Hin.
        rewrite bool_decide_eq_false_2; [reflexivity |].
        intros Hc. apply elem_of_cons in Hc as [-> | Hc]; [congruence | auto].
Qed.

Lemma new_row_lookup (t : table) (cols : list string) (cells : list sqlval)
    (key : Z) (c : string) :
  c ∈ columns t -> c <> "id"%string ->
  SQLite.new_row t cols cells key !! c
  = Some (default SNull
            ((list_to_map (zip cols cells) : gmap string sqlval) !! c)).
Proof.
  intros Hin Hid. unfold SQLite.new_row.
  rewrite (lookup_column_map
             (fun c => if String.eqb c "id" then SInteger key
                       else default SNull
                              ((list_to_map (zip cols cells) : gmap string sqlval) !! c))).
  rewrite bool_decide_eq_true_2 by exact Hin.
  apply String.eqb_neq in Hid. rewrite Hid. reflexivity.
Qed.

Lemma new_row_missing_column (t : table) (cols : list string)
    (cells : list sqlval) (key : Z) (c : string) :
  c ∉ columns t -> SQLite.new_row t cols cells key !! c = None.
Proof.
  intros Hin. unfold SQLite.new_row.
  rewrite (lookup_column_map
             (fun c => if String.eqb c "id" then SInteger key
                       else default SNull
                              ((list_to_map (zip cols cells) : gmap string sqlval) !! c))).
  rewrite bool_decide_eq_false_2 by exact Hin. reflexivity.
Qed.

Lemma zip_lookup_nodup (cols : list string) :
  forall (cells : list sqlval) (i : nat) (k : string) (c : sqlval),
    NoDup cols -> cols !! i = Some k -> cells !! i = Some c ->
    (list_to_map (zip cols cells) : gmap string sqlval) !! k = Some c.
Proof.
  induction cols as [| k0 cols IH]; intros cells i k c Hnd Hk Hc.
  - destruct i; discriminate.
  - destruct cells as [| c0 cells]; [destruct i; discriminate |].
    apply NoDup_cons in Hnd as [Hnotin Hnd]. cbn.
    destruct i as [| i]; cbn in Hk, Hc.
    + injection Hk as <-. injection Hc as <-. apply lookup_insert_eq.
    + rewrite lookup_insert_ne.
      * eapply IH; eauto.
      * intros ->. apply Hnotin. eapply list_elem_of_lookup_2. exact Hk.
Qed.

Lemma zip_lookup_unlisted (cols : list string) (cells : list sqlval) (k : string) :
  k ∉ cols ->
  (list_to_map (zip cols cells) : gmap string sqlval) !! k = None.
Proof.
  revert cells. induction cols as [| k0 cols IH]; intros cells Hk.
  - reflexivity.
  - destruct cells as [| c0 cells]; [reflexivity |]. cbn.
    apply not_elem_of_cons in Hk as [Hne Hk].
    rewrite lookup_insert_ne by congruence. apply IH. exact Hk.
Qed.

Lemma bind_params_lookup (l : list pyval) :
  forall (cells : list sqlval) (i : nat) (v : pyval),
    SQLite.bind_params l = Ok cells -> l !! i = Some v ->
    exists c, cells !! i = Some c /\ SQLite.bind_param v = Ok c.
Proof.
  induction l as [| v0 l IH]; intros cells i v; cbn.
  - intros _ H. destruct i; discriminate.
  - destruct (SQLite.bind_param v0) as [c0 |] eqn:H0; [| discriminate].
    destruct (SQLite.bind_params l) as [cs |]; [| discriminate].
    intros [= <-]. destruct i as [| i]; cbn.
    + intros [= <-]. eauto.
    + intros Hv. eapply IH; eauto.
Qed.

Lemma insert_inv (cols : list string) (vals : list pyval) (d d' : database) :
  SQLite.insert cols vals d = Ok d' ->
  exists t cells,
    misp_iocs d = Some t
    /\ (forall c, c ∈ cols -> c ∈ columns t)
    /\ SQLite.bind_params vals = Ok cells
    /\ d' = {| misp_iocs :=
                 Some {| columns := columns t;
                         tbl_rows := tbl_rows t
                                     ++ [SQLite.new_row t cols cells (autoinc t + 1)];
                         autoinc := autoinc t + 1 |};
               indices := indices d |}.
Proof.
  unfold SQLite.insert. destruct (misp_iocs d) as [t |]; [| discriminate].
  destruct (forallb _ cols) eqn:Hcols; [| discriminate].
  destruct (SQLite.bind_params vals) as [cells |]; [| discriminate].
  intros [= <-]. exists t, cells. repeat split.
  intros c Hc. rewrite forallb_forall in Hcols.
  apply list_elem_of_In in Hc. apply Hcols in Hc.
  apply bool_decide_eq_true in Hc. exact Hc.
Qed.

Lemma insert_columns_nodup : NoDup SQLite.INSERT_COLUMNS.
Proof.
  unfold SQLite.INSERT_COLUMNS.
  repeat (apply NoDup_cons; split;
          [intros H; repeat (apply elem_of_cons in H as [H | H]; [discriminate |]);
           apply elem_of_nil in H; exact H |]).
  apply NoDup_nil. exact I.
Qed.

Lemma summary_not_inserted : "executive_summary"%string ∉ SQLite.INSERT_COLUMNS.
Proof.
  unfold SQLite.INSERT_COLUMNS. intros H.
  repeat (apply elem_of_cons in H as [H | H]; [discriminate |]).
  apply elem_of_nil in H. exact H.
Qed.

(** The stored cell of the field held at position [i] of the [INSERT]. *)
Lemma inserted_cell (t : table) (ct : string) (ioc : row) (cells : list sqlval)
    (key : Z) (i : nat) (k : string) (v : pyval) :
  (forall c, c ∈ SQLite.INSERT_COLUMNS -> c ∈ columns t) ->
  SQLite.bind_params (insert_values ct ioc) = Ok cells ->
  SQLite.INSERT_COLUMNS !! i = Some k -> k <> "id"%string ->
  insert_values ct ioc !! i = Some v ->
  exists c, SQLite.bind_param v = Ok c
            /\ SQLite.new_row t SQLite.INSERT_COLUMNS cells key !! k = Some c.
Proof.
  intros Hcols Hbind Hk Hid Hv.
  destruct (bind_params_lookup _ _ _ _ Hbind Hv) as (c & Hc & Hb).
  exists c. split; [exact Hb |].
  rewrite new_row_lookup; [| | exact Hid].
  - rewrite (zip_lookup_nodup _ _ _ _ _ insert_columns_nodup Hk Hc). reflexivity.
  - apply Hcols. eapply list_elem_of_lookup_2. exact Hk.
Qed.

Lemma insert_row_facts (ct : string) (ioc : row) (d d' : database) :
  SQLite.insert SQLite.INSERT_COLUMNS (insert_values ct ioc) d = Ok d' ->
  exists t r,
    misp_iocs d = Some t
    /\ misp_iocs d' = Some {| columns := columns t;
                              tbl_rows := tbl_rows t ++ [r];
                              autoinc := autoinc t + 1 |}
    /\ absent_fields_stored ioc r
    /\ cell r "executive_summary" = SNull
    /\ ("executive_summary"%string ∈ columns t ->
        r !! "executive_summary"%string = Some SNull).
Proof.
  intros H. apply insert_inv in H as (t & cells & Ht & Hcols & Hbind & ->).
  exists t, (SQLite.new_row t SQLite.INSERT_COLUMNS cells (autoinc t + 1)).
  split; [exact Ht |]. split; [reflexivity |]. split; [| split].
  - split.
    + intros Habs.
      destruct (inserted_cell t ct ioc cells (autoinc t + 1) 11
                  "attribute_to_ids" (PInt 0) Hcols Hbind)
        as (c & Hb & Hc); [reflexivity | discriminate | |].
      * cbn. rewrite Habs. reflexivity.
      * cbn in Hb. injection Hb as <-. exact Hc.
    + intros k Hk Habs.
      assert (Hi : exists i, SQLite.INSERT_COLUMNS !! i = Some k
                             /\ insert_values ct ioc !! i
                                = Some (default PNone (ioc !! k))
                             /\ k <> "id"%string).
      { cbn in Hk.
        repeat (destruct Hk as [<- | Hk];
                [eexists; split; [| split; [| discriminate]];
                 [ first [ exact (eq_refl : SQLite.INSERT_COLUMNS !! 0%nat = _)
                         | exact (eq_refl : SQLite.INSERT_COLUMNS !! 1%nat = _)
                         | exact (eq_refl : SQLite.INSERT_COLUMNS !! 2%nat = _)
                         | exact (eq_refl : SQLite.INSERT_COLUMNS !! 3%nat = _)
                         | exact (eq_refl : SQLite.INSERT_COLUMNS !! 4%nat = _)
                         | exact (eq_refl : SQLite.INSERT_COLUMNS !! 5%nat = _)
                         | exact (eq_refl : SQLite.INSERT_COLUMNS !! 6%nat = _)
                         | exact (eq_refl : SQLite.INSERT_COLUMNS !! 7%nat = _)
                         | exact (eq_refl : SQLite.INSERT_COLUMNS !! 8%nat = _)
                         | exact (eq_refl : SQLite.INSERT_COLUMNS !! 9%nat = _)
                         | exact (eq_refl : SQLite.INSERT_COLUMNS !! 10%nat = _) ]
                 | reflexivity ] |]).
        contradiction. }
      destruct Hi as (i & Hcol & Hval & Hid).
      destruct (inserted_cell t ct ioc cells (autoinc t + 1) i k _
                  Hcols Hbind Hcol Hid Hval) as (c & Hb & Hc).
      rewrite Habs in Hb. cbn in Hb. injection Hb as <-. exact Hc.
  - unfold cell.
    destruct (decide ("executive_summary"%string ∈ columns t)) as [Hin | Hout].
    + rewrite new_row_lookup; [| exact Hin | discriminate].
      rewrite zip_lookup_unlisted by exact summary_not_inserted. reflexivity.
    + rewrite new_row_missing_column by exact Hout. reflexivity.
  - intros Hin. rewrite new_row_lookup; [| exact Hin | discriminate].
    rewrite zip_lookup_unlisted by exact summary_not_inserted. reflexivity.
Qed.

Lemma insert_many_rows (ct : string) (iocs : list row) :
  forall d d',
    insert_many ct iocs d = Ok d' ->
    exists new,
      table_rows d' = table_rows d ++ new
      /\ Forall2 absent_fields_stored iocs new
      /\ Forall (fun r => cell r "executive_summary" = SNull) new
      /\ (forall t, misp_iocs d = Some t ->
            "executive_summary"%string ∈ columns t ->
            Forall (fun r => r !! "executive_summary"%string = Some SNull) new).
Proof.
  induction iocs as [| ioc rest IH]; intros d d'; cbn [insert_many].
  - intros [= <-]. exists []. rewrite app_nil_r.
    repeat split; auto using Forall2_nil, Forall_nil.
    all: intros; apply Forall_nil; exact I.
  - destruct (SQLite.insert _ _ d) as [d1 |] eqn:Hins; [| discriminate].
    intros Hrest.
    apply insert_row_facts in Hins as (t & r & Ht & Ht1 & Habs & Hcell & Hsum).
    destruct (IH d1 d' Hrest) as (new & Hrows & Hall & Hcells & Hsums).
    exists (r :: new). split; [| split; [| split]].
    + rewrite Hrows. unfold table_rows. rewrite Ht, Ht1. cbn.
      rewrite <- app_assoc. reflexivity.
    + apply Forall2_cons; auto.
    + apply Forall_cons; auto.
    + intros t' Ht' Hin. rewrite Ht in Ht'. injection Ht' as <-.
      apply Forall_cons. split; [apply Hsum; exact Hin |].
      eapply Hsums; [exact Ht1 | exact Hin].
Qed.

Lemma insert_many_unbindable (ct : string) (l1 : list row) (bad : row)
    (l2 : list row) :
  binds bad = false ->
  forall d, exists e, insert_many ct (l1 ++ bad :: l2) d = Raise e.
Proof.
  intros Hbad. induction l1 as [| ioc l1 IH]; intros d; cbn [insert_many app].
  - destruct (binds_false ct bad Hbad) as (e & He).
    unfold SQLite.insert. destruct (misp_iocs d); [| eauto].
    destruct (forallb _ _); [| eauto]. rewrite He. eauto.
  - destruct (SQLite.insert _ _ d) as [d1 |]; [apply IH | eauto].
Qed.

Section CacheSteps.

Variable E : env.

Lemma sqlite_ddl_run (stmt : database -> fallible database) (c : sqlconn)
    (s : state) :
  sc_in_txn c = false ->
  sqlite_ddl E stmt c s =
    if sqlite_ddl_fails E then (Raise (Exc SqliteError), s)
    else
      match sc_work c with
      | None => (Raise (Exc SqliteError), s)
      | Some d =>
          match stmt d with
          | Raise e => (Raise (Exc e), s)
          | Ok d' =>
              (Ok {| sc_path := sc_path c; sc_work := Some d'; sc_in_txn := false |},
               set_files (<[sc_path c := Sqlite d']> (files s)) s)
          end
      end.
Proof.
  intros Htxn. unfold sqlite_ddl, sqlite_apply. unfold_py.
  destruct (sqlite_ddl_fails E); [reflexivity |].
  destruct (sc_work c) as [d |]; [| reflexivity].
  destruct (stmt d) as [d' | e]; [| reflexivity].
  rewrite Htxn. reflexivity.
Qed.

Lemma sqlite_insert_run (i : nat) (vals : list pyval) (c : sqlconn)
    (s : state) (d : database) :
  sc_work c = Some d ->
  sqlite_insert E i vals c s =
    if bool_decide (sqlite_insert_fails E = Some i)
    then (Raise (Exc SqliteError), s)
    else
      match SQLite.insert SQLite.INSERT_COLUMNS vals d with
      | Raise e => (Raise (Exc e), s)
      | Ok d' =>
          (Ok {| sc_path := sc_path c; sc_work := Some d'; sc_in_txn := true |}, s)
      end.
Proof.
  intros Hd. unfold sqlite_insert, sqlite_apply. unfold_py.
  destruct (bool_decide _); [reflexivity |]. rewrite Hd.
  destruct (SQLite.insert _ vals d) as [d' | e]; [| reflexivity].
  rewrite orb_true_r. reflexivity.
Qed.

(** The loop leaves the files and the journal alone: its inserts stay in
    the open transaction. *)
Lemma insert_all_ok (ct : string) (iocs : list row) :
  forall (i : nat) (c : sqlconn) (s : state) (d d' : database),
    sc_work c = Some d ->
    insert_many ct iocs d = Ok d' ->
    (forall k, sqlite_insert_fails E = Some k ->
               (k < i \/ i + length iocs <= k)%nat) ->
    exists c',
      insert_all E ct i iocs c s = (Ok c', s)
      /\ sc_path c' = sc_path c /\ sc_work c' = Some d'
      /\ sc_in_txn c' = (sc_in_txn c || negb (bool_decide (iocs = []))).
Proof.
  induction iocs as [| ioc rest IH]; intros i c s d d' Hd Hmany Hfault;
    cbn [insert_all insert_many] in *.
  - injection Hmany as <-. exists c. repeat split; auto.
    rewrite bool_decide_eq_true_2 by reflexivity. cbn. rewrite orb_false_r.
    reflexivity.
  - destruct (SQLite.insert _ _ d) as [d1 |] eqn:Hins; [| discriminate].
    unfold bind. rewrite (sqlite_insert_run i _ c s d Hd), Hins.
    rewrite bool_decide_eq_false_2.
    2:{ intros Hk. apply Hfault in Hk. cbn in Hk. lia. }
    destruct (IH (S i) {| sc_path := sc_path c; sc_work := Some d1; sc_in_txn := true |}
                s d1 d' eq_refl Hmany) as (c' & Hrun & Hp & Hw & Ht).
    { intros k Hk. apply Hfault in Hk. cbn in Hk. lia. }
    exists c'. split; [exact Hrun |]. split; [exact Hp |]. split; [exact Hw |].
    rewrite Ht. rewrite (bool_decide_eq_false_2 (ioc :: rest = [])) by discriminate.
    cbn. rewrite orb_true_r. reflexivity.
Qed.

Lemma insert_all_raises (ct : string) (iocs : list row) :
  forall (i : nat) (c : sqlconn) (s : state) (d : database),
    sc_work c = Some d ->
    (exists e, insert_many ct iocs d = Raise e)
    \/ (exists k, sqlite_insert_fails E = Some k
                  /\ (i <= k < i + length iocs)%nat) ->
    exists e, insert_all E ct i iocs c s = (Raise (Exc e), s).
Proof.
  induction iocs as [| ioc rest IH]; intros i c s d Hd Hfail;
    cbn [insert_all insert_many] in *.
  - destruct Hfail as [[e He] | (k & _ & Hk)]; [discriminate | cbn in Hk; lia].
  - unfold bind. rewrite (sqlite_insert_run i _ c s d Hd).
    destruct (bool_decide (sqlite_insert_fails E = Some i)) eqn:Hhere; [eauto |].
    apply bool_decide_eq_false in Hhere.
    destruct (SQLite.insert _ _ d) as [d1 | e1] eqn:Hins; [| eauto].
    apply (IH (S i) {| sc_path := sc_path c; sc_work := Some d1; sc_in_txn := true |}
             s d1 eq_refl).
    destruct Hfail as [Hmany | (k & Hk & Hrange)]; [left; exact Hmany |].
    right. exists k. split; [exact Hk |]. cbn in Hrange.
    assert (k <> i) by congruence. lia.
Qed.

(** Once an insert has failed, the records after it are not looked at. *)
Lemma insert_all_abort (ct : string) (l1 : list row) (bad : row)
    (l2 : list row) :
  forall (i : nat) (c : sqlconn) (s : state) (d : database),
    sc_work c = Some d ->
    binds bad = false \/ sqlite_insert_fails E = Some (i + length l1)%nat ->
    insert_all E ct i (l1 ++ bad :: l2) c s
    = insert_all E ct i (l1 ++ [bad]) c s.
Proof.
  induction l1 as [| ioc l1 IH]; intros i c s d Hd Hbad;
    cbn [insert_all app].
  - unfold bind. rewrite (sqlite_insert_run i _ c s d Hd).
    destruct (bool_decide (sqlite_insert_fails E = Some i)) eqn:Hhere;
      [reflexivity |].
    apply bool_decide_eq_false in Hhere.
    destruct Hbad as [Hbad | Hk].
    + destruct (binds_false ct bad Hbad) as (e & He).
      unfold SQLite.insert. destruct (misp_iocs d); [| reflexivity].
      destruct (forallb _ _); [| reflexivity]. rewrite He. reflexivity.
    + cbn in Hk. rewrite Nat.add_0_r in Hk. contradiction.
  - unfold bind. rewrite (sqlite_insert_run i _ c s d Hd).
    destruct (bool_decide _); [reflexivity |].
    destruct (SQLite.insert _ _ d) as [d1 | e1]; [| reflexivity].
    apply (IH (S i) {| sc_path := sc_path c; sc_work := Some d1; sc_in_txn := true |}
             s d1 eq_refl).
    destruct Hbad as [Hbad | Hk]; [left; exact Hbad |].
    right. rewrite Hk. f_equal. cbn. lia.
Qed.

End CacheSteps.

Section CacheBatch.

Variable E : env.

Lemma stored_rows_insert (fs : gmap string content) (path : string)
    (d : database) :
  stored_rows (<[path := Sqlite d]> fs) path = table_rows d.
Proof. unfold stored_rows. rewrite lookup_insert_eq. reflexivity. Qed.

(** The four schema statements, run on a connection with no open
    transaction: they amount to [schema], written to the file; when one
    of them fails, the rows of the store are what they were. *)
Lemma schema_statements_run {A} (k : sqlconn -> M A) (c : sqlconn)
    (s : state) (d0 : database) :
  sc_in_txn c = false -> sqlite_ddl_fails E = false ->
  sc_work c = Some d0 ->
  stored_rows (files s) (sc_path c) = table_rows d0 ->
  let run :=
    bind (sqlite_ddl E SQLite.create_table c) (fun c1 =>
    bind (sqlite_ddl E (SQLite.create_index "idx_attribute_type" "attribute_type") c1) (fun c2 =>
    bind (sqlite_ddl E (SQLite.create_index "idx_attribute_value" "attribute_value") c2) (fun c3 =>
    bind (sqlite_ddl E (SQLite.create_index "idx_event_id" "event_id") c3) k))) s in
  match schema d0 with
  | Ok d =>
      run = k {| sc_path := sc_path c; sc_work := Some d; sc_in_txn := false |}
              (set_files (<[sc_path c := Sqlite d]> (files s)) s)
  | Raise e =>
      exists s1, run = (Raise (Exc e), s1)
                 /\ journal s1 = journal s
                 /\ stored_rows (files s1) (sc_path c) = table_rows d0
  end.
Proof.
  intros Htxn Hddl Hwork Hstored run.
  assert (Hrun : run = run) by reflexivity.
  unfold run at 2 in Hrun. clearbody run. unfold schema.
  unfold bind at 1 in Hrun.
  rewrite (sqlite_ddl_run E _ c s Htxn), Hddl, Hwork in Hrun.
  destruct (SQLite.create_table d0) as [d1 | e1] eqn:H1; [| eauto].
  apply create_table_rows in H1 as (Hr1 & _).
  unfold bind at 1 in Hrun. rewrite sqlite_ddl_run in Hrun by reflexivity.
  rewrite Hddl in Hrun. cbn [sc_work sc_path] in Hrun.
  destruct (SQLite.create_index _ _ d1) as [d2 | e2] eqn:H2.
  2:{ eexists. split; [exact Hrun |]. split; [reflexivity |].
      cbn. rewrite stored_rows_insert. exact Hr1. }
  apply create_index_rows in H2 as Hr2.
  unfold bind at 1 in Hrun. rewrite sqlite_ddl_run in Hrun by reflexivity.
  rewrite Hddl in Hrun. cbn [sc_work sc_path] in Hrun.
  destruct (SQLite.create_index _ _ d2) as [d3 | e3] eqn:H3.
  2:{ eexists. split; [exact Hrun |]. split; [reflexivity |].
      cbn. rewrite stored_rows_insert. congruence. }
  apply create_index_rows in H3 as Hr3.
  unfold bind at 1 in Hrun. rewrite sqlite_ddl_run in Hrun by reflexivity.
  rewrite Hddl in Hrun. cbn [sc_work sc_path] in Hrun.
  destruct (SQLite.create_index _ _ d3) as [d4 | e4] eqn:H4.
  2:{ eexists. split; [exact Hrun |]. split; [reflexivity |].
      cbn. rewrite stored_rows_insert. congruence. }
  rewrite Hrun. unfold set_files. cbn [files journal pings].
  rewrite !insert_insert_eq. reflexivity.
Qed.

End CacheBatch.

Section CacheStore.

Variable E : env.

Lemma in_journal_last (ev : event) (s : state) :
  In ev (journal (add_event ev s)).
Proof. cbn. apply in_or_app. right. left. reflexivity. Qed.

Lemma insert_fault_among_false (n : nat) :
  insert_fault_among E n = false ->
  forall k, sqlite_insert_fails E = Some k -> (k < 0 \/ 0 + n <= k)%nat.
Proof.
  unfold insert_fault_among. intros H k Hk. rewrite Hk in H.
  apply Nat.ltb_ge in H. lia.
Qed.

Lemma insert_fault_among_true (n : nat) :
  insert_fault_among E n = true ->
  exists k, sqlite_insert_fails E = Some k /\ (0 <= k < 0 + n)%nat.
Proof.
  unfold insert_fault_among. destruct (sqlite_insert_fails E) as [k |];
    [| discriminate].
  intros H. apply Nat.ltb_lt in H. exists k. split; [reflexivity | lia].
Qed.

(** The batch after its schema statements: the clock, the inserts, the
    commit. *)
Lemma batch_tail_run (iocs : list row) (conn : sqlconn) (s1 : state)
    (d : database) :
  sc_work conn = Some d -> sc_in_txn conn = false ->
  let r :=
    (let! now := lift (datetime_now E (now_import E)) in
     let! conn' := insert_all E (DateTime.strftime now) 0 iocs conn in
     do! sqlite_commit E conn' in
     log INFO "Successfully saved IOCs to cache database") s1 in
  match inserts_of E d iocs with
  | Some d' =>
      exists s2, r = (Ok tt, s2)
        /\ stored_rows (files s2) (sc_path conn)
           = (if bool_decide (iocs = [])
              then stored_rows (files s1) (sc_path conn)
              else table_rows d')
        /\ In (Log INFO "Successfully saved IOCs to cache database") (journal s2)
  | None => exists e, r = (Raise (Exc e), s1)
  end.
Proof.
  intros Hwork Htxn r.
  assert (Hr : r = r) by reflexivity. unfold r at 2 in Hr. clearbody r.
  unfold inserts_of.
  unfold bind at 1 in Hr. unfold lift at 1 in Hr.
  destruct (datetime_now E (now_import E)) as [now | e]; [| eauto].
  unfold bind at 1 in Hr.
  destruct (insert_fault_among E (length iocs)) eqn:Hfault.
  { apply insert_fault_among_true in Hfault.
    destruct (insert_all_raises E (DateTime.strftime now) iocs 0 conn s1 d
                Hwork (or_intror Hfault)) as (e & He).
    rewrite He in Hr. eauto. }
  destruct (insert_many (DateTime.strftime now) iocs d) as [d' | e] eqn:Hmany.
  2:{ destruct (insert_all_raises E (DateTime.strftime now) iocs 0 conn s1 d
                  Hwork (or_introl (ex_intro _ e Hmany))) as (e' & He).
      rewrite He in Hr. eauto. }
  destruct (insert_all_ok E (DateTime.strftime now) iocs 0 conn s1 d d'
              Hwork Hmany (insert_fault_among_false _ Hfault))
    as (c' & He & Hp & Hw & Ht).
  rewrite He in Hr. unfold bind at 1 in Hr. unfold sqlite_commit in Hr.
  destruct (sqlite_commit_fails E); [eauto |].
  rewrite Ht, Hw, Hp, Htxn in Hr. cbn [orb] in Hr.
  destruct (bool_decide (iocs = [])) eqn:Hnil; cbn in Hr.
  - eexists. split; [exact Hr |]. split; [reflexivity |].
    apply in_journal_last.
  - eexists. split; [exact Hr |]. split.
    + cbn. apply stored_rows_insert.
    + apply in_journal_last.
Qed.

(** What the batch leaves in the store and in the journal, on a
    connection with no open transaction whose view agrees with the
    file. *)
Lemma cache_batch_store (iocs : list row) (c : sqlconn) (s : state) :
  sc_in_txn c = false ->
  (forall d, sc_work c = Some d ->
             stored_rows (files s) (sc_path c) = table_rows d) ->
  let s' := snd (try_except (cache_batch E iocs c) is_exception on_cache_error s) in
  match batch_of E (sc_work c) iocs with
  | Some d' =>
      stored_rows (files s') (sc_path c) = table_rows d'
      /\ In (Log INFO "Successfully saved IOCs to cache database") (journal s')
  | None =>
      stored_rows (files s') (sc_path c) = stored_rows (files s) (sc_path c)
      /\ In (Log ERROR "Error saving IOCs to cache database") (journal s')
  end.
Proof.
  intros Htxn Hview. cbv zeta. unfold batch_of.
  set (k := fun conn : sqlconn =>
              (let! now := lift (datetime_now E (now_import E)) in
               let! conn' := insert_all E (DateTime.strftime now) 0 iocs conn in
               do! sqlite_commit E conn' in
               log INFO "Successfully saved IOCs to cache database")).
  change (cache_batch E iocs c)
    with (bind (sqlite_ddl E SQLite.create_table c) (fun c1 =>
          bind (sqlite_ddl E (SQLite.create_index "idx_attribute_type" "attribute_type") c1) (fun c2 =>
          bind (sqlite_ddl E (SQLite.create_index "idx_attribute_value" "attribute_value") c2) (fun c3 =>
          bind (sqlite_ddl E (SQLite.create_index "idx_event_id" "event_id") c3) k)))).
  unfold try_except.
  match goal with |- context [bind ?m ?f s] =>
    remember (bind m f s) as run eqn:Hrun end.
  destruct (sqlite_ddl_fails E) eqn:Hddl.
  { unfold bind at 1 in Hrun.
    rewrite (sqlite_ddl_run E _ c s Htxn), Hddl in Hrun. rewrite Hrun. cbn.
    split; [reflexivity | apply in_journal_last]. }
  destruct (sc_work c) as [d0 |] eqn:Hwork.
  2:{ unfold bind at 1 in Hrun.
      rewrite (sqlite_ddl_run E _ c s Htxn), Hddl, Hwork in Hrun. rewrite Hrun. cbn.
      split; [reflexivity | apply in_journal_last]. }
  pose proof (schema_statements_run E k c s d0 Htxn Hddl Hwork (Hview d0 eq_refl))
    as Hschema. cbv zeta in Hschema. rewrite <- Hrun in Hschema.
  destruct (schema d0) as [d | e] eqn:Hsch.
  2:{ destruct Hschema as (s1 & -> & Hj & Hrows). cbn.
      split; [| apply in_journal_last].
      rewrite Hrows. symmetry. apply Hview. reflexivity. }
  apply schema_rows in Hsch as (Hrows & _).
  assert (Hs1 : stored_rows (<[sc_path c := Sqlite d]> (files s)) (sc_path c)
                = stored_rows (files s) (sc_path c)).
  { rewrite stored_rows_insert, Hrows. symmetry. apply Hview. reflexivity. }
  pose proof (batch_tail_run iocs
                {| sc_path := sc_path c; sc_work := Some d; sc_in_txn := false |}
                (set_files (<[sc_path c := Sqlite d]> (files s)) s) d
                eq_refl eq_refl) as Htail.
  cbv zeta in Htail. unfold k in Hschema. cbv beta in Hschema.
  rewrite <- Hschema in Htail. clear Hschema Hrun.
  destruct (inserts_of E d iocs) as [d' |] eqn:Hins.
  - destruct Htail as (s2 & -> & Hst & Hj). cbn. split; [| exact Hj].
    cbn [sc_path files set_files] in Hst. rewrite Hst.
    destruct (bool_decide (iocs = [])) eqn:Hnil; [| reflexivity].
    apply bool_decide_eq_true in Hnil. subst iocs.
    rewrite Hs1. unfold inserts_of in Hins.
    destruct (datetime_now E (now_import E)); [| discriminate].
    destruct (insert_fault_among E _); [discriminate |]. cbn in Hins.
    destruct (sqlite_commit_fails E); [discriminate |].
    injection Hins as <-. rewrite Hrows. apply Hview. reflexivity.
  - destruct Htail as (e' & ->). cbn. split; [exact Hs1 | apply in_journal_last].
Qed.

End CacheStore.

(** [save_to_cache_db] after its rotation. *)
Lemma save_to_cache_db_unfold (E : env) (iocs : list row)
    (db_path : option string) (s : state) (b : bool) (s1 : state) :
  let path := default (path_join (script_dir E) (cache_db (cfg E))) db_path in
  let bk := path_join (script_dir E)
              (default DEFAULT_BACKUP_DB (backup_db (cfg E))) in
  backup_cache_db E path (Some bk) s = (Ok b, s1) ->
  save_to_cache_db E iocs db_path s =
    let s2 := if b then s1
              else add_event
                     (Log WARNING "Proceeding with database update without backup") s1 in
    if sqlite_connect_fails E then on_cache_error (Exc SqliteError) s2
    else
      let found := files s2 !! path in
      let s3 := match found with
                | None => set_files (<[path := Opaque EmptyString]> (files s2)) s2
                | Some _ => s2
                end in
      let c := {| sc_path := path; sc_work := SQLite.open_database found;
                  sc_in_txn := false |} in
      finally (try_except (cache_batch E iocs c) is_exception on_cache_error)
              (sqlite_close c) s3.
Proof.
  cbv zeta. intros Hrot. unfold save_to_cache_db.
  unfold bind at 1. rewrite Hrot. unfold bind at 1.
  unfold sqlite_connect.
  destruct b; cbn [ret log emit]; destruct (sqlite_connect_fails E); reflexivity.
Qed.

(** What a run of the cache writer leaves in the store at the cache path:
    the database [batch_result] computes when the batch goes through, and
    otherwise the rows the path held once the rotation was over. *)
Lemma save_to_cache_db_store (E : env) (iocs : list row)
    (db_path : option string) (s : state) :
  let path := default (path_join (script_dir E) (cache_db (cfg E))) db_path in
  let bk := path_join (script_dir E)
              (default DEFAULT_BACKUP_DB (backup_db (cfg E))) in
  let s_rot := snd (backup_cache_db E path (Some bk) s) in
  let s' := snd (save_to_cache_db E iocs db_path s) in
  match batch_result E (files s_rot !! path) iocs with
  | Some d' =>
      stored_rows (files s') path = table_rows d'
      /\ In (Log INFO "Successfully saved IOCs to cache database") (journal s')
  | None =>
      stored_rows (files s') path = stored_rows (files s_rot) path
      /\ In (Log ERROR "Error saving IOCs to cache database") (journal s')
  end.
Proof.
  cbv zeta.
  set (path := default _ db_path). set (bk := path_join _ (default _ _)).
  destruct (backup_cache_db_returns E path (Some bk) s) as (b & s1 & Hrot).
  rewrite (save_to_cache_db_unfold E iocs db_path s b s1 Hrot). fold path.
  rewrite Hrot. cbn [snd]. cbv zeta.
  set (s2 := if b then s1 else add_event _ s1).
  assert (Hf2 : files s2 = files s1) by (unfold s2; destruct b; reflexivity).
  unfold batch_result.
  destruct (sqlite_connect_fails E).
  { cbn. rewrite Hf2. split; [reflexivity | apply in_journal_last]. }
  rewrite Hf2.
  set (found := files s1 !! path).
  set (s3 := match found with
             | None => set_files (<[path := Opaque EmptyString]> (files s1)) s2
             | Some _ => s2
             end).
  set (c := {| sc_path := path; sc_work := SQLite.open_database found;
               sc_in_txn := false |}).
  assert (Hrows3 : stored_rows (files s3) path = stored_rows (files s1) path).
  { unfold s3, stored_rows. fold found. destruct found as [x |] eqn:Hfound.
    - rewrite Hf2. fold found. rewrite Hfound. reflexivity.
    - cbn. rewrite lookup_insert_eq. reflexivity. }
  assert (Hview : forall d, sc_work c = Some d ->
                            stored_rows (files s3) (sc_path c) = table_rows d).
  { intros d Hd. cbn [sc_path sc_work c] in *. rewrite Hrows3.
    unfold stored_rows. fold found.
    destruct found as [[d1 | doc fin | data] |]; cbn in Hd.
    - injection Hd as <-. reflexivity.
    - discriminate.
    - destruct data; [injection Hd as <-; reflexivity | discriminate].
    - injection Hd as <-. reflexivity. }
  pose proof (cache_batch_store E iocs c s3 eq_refl Hview) as Hbatch.
  cbv zeta in Hbatch. cbn [sc_path sc_work c] in Hbatch.
  unfold finally, sqlite_close, ret.
  destruct (try_except (cache_batch E iocs c) is_exception on_cache_error s3)
    as [r s4].
  cbn [snd] in Hbatch |- *. rewrite Hrows3 in Hbatch. exact Hbatch.
Qed.

(** The rows a batch that goes through adds to the store. *)
Lemma batch_result_rows (E : env) (fs : gmap string content) (path : string)
    (iocs : list row) (d' : database) :
  batch_result E (fs !! path) iocs = Some d' ->
  exists new,
    table_rows d' = stored_rows fs path ++ new
    /\ Forall2 absent_fields_stored iocs new
    /\ Forall (fun r => cell r "executive_summary" = SNull) new
    /\ (fs !! path = None ->
        Forall (fun r => r !! "executive_summary"%string = Some SNull) new).
Proof.
  unfold batch_result, batch_of, inserts_of.
  destruct (sqlite_connect_fails E); [discriminate |].
  destruct (sqlite_ddl_fails E); [discriminate |].
  destruct (SQLite.open_database (fs !! path)) as [d0 |] eqn:Hopen; [| discriminate].
  destruct (schema d0) as [d |] eqn:Hsch; [| discriminate].
  destruct (datetime_now E (now_import E)) as [now |]; [| discriminate].
  destruct (insert_fault_among E (length iocs)); [discriminate |].
  destruct (insert_many (DateTime.strftime now) iocs d) as [d1 |] eqn:Hmany;
    [| discriminate].
  destruct (sqlite_commit_fails E); [discriminate |]. intros [= <-].
  apply schema_rows in Hsch as (Hrows & _ & Hfresh).
  destruct (insert_many_rows _ _ _ _ Hmany) as (new & Hnew & Hall & Hcells & Hsum).
  exists new. split; [| split; [exact Hall | split; [exact Hcells |]]].
  - rewrite Hnew, Hrows. f_equal. unfold stored_rows.
    destruct (fs !! path) as [[dd | doc fin | data] |]; cbn in Hopen.
    + injection Hopen as <-. reflexivity.
    + discriminate.
    + destruct data; [injection Hopen as <-; reflexivity | discriminate].
    + injection Hopen as <-. reflexivity.
  - intros Hnone. rewrite Hnone in Hopen. cbn in Hopen. injection Hopen as <-.
    eapply Hsum; [apply Hfresh; reflexivity |]. cbn.
    unfold SQLite.CACHE_COLUMNS.
    repeat first [apply list_elem_of_here | apply list_elem_of_further].
Qed.

(** A record whose values cannot be bound, or an insert the environment
    fails, leaves the batch without a result. *)
Lemma batch_result_failed_insert (E : env) (found : option content)
    (l1 : list row) (bad : row) (l2 : list row) :
  binds bad = false \/ sqlite_insert_fails E = Some (length l1) ->
  batch_result E found (l1 ++ bad :: l2) = None.
Proof.
  intros Hbad. unfold batch_result, batch_of, inserts_of.
  destruct (sqlite_connect_fails E); [reflexivity |].
  destruct (sqlite_ddl_fails E); [reflexivity |].
  destruct (SQLite.open_database found) as [d0 |]; [| reflexivity].
  destruct (schema d0) as [d |]; [| reflexivity].
  destruct (datetime_now E (now_import E)) as [now |]; [| reflexivity].
  destruct Hbad as [Hbad | Hk].
  - destruct (insert_fault_among E _); [reflexivity |].
    destruct (insert_many_unbindable (DateTime.strftime now) l1 bad l2 Hbad d)
      as (e & ->). reflexivity.
  - unfold insert_fault_among. rewrite Hk.
    replace (Nat.ltb (length l1) (length (l1 ++ bad :: l2))) with true;
      [reflexivity |].
    symmetry. apply Nat.ltb_lt. rewrite length_app. cbn. lia.
Qed.

Lemma bind_congr {A B} (m : M A) (k1 k2 : A -> M B) (s : state) :
  (forall a s', m s = (Ok a, s') -> k1 a s' = k2 a s') ->
  bind m k1 s = bind m k2 s.
Proof.
  intros H. unfold bind. destruct (m s) as [[a | e] s'] eqn:Hm; [| reflexivity].
  apply H. reflexivity.
Qed.

Lemma sqlite_ddl_sees (E : env) (stmt : database -> fallible database)
    (c c' : sqlconn) (s s' : state) :
  sqlite_ddl E stmt c s = (Ok c', s') -> exists d, sc_work c' = Some d.
Proof.
  unfold sqlite_ddl, sqlite_apply. unfold_py.
  destruct (sqlite_ddl_fails E); [discriminate |].
  destruct (sc_work c) as [d |]; [| discriminate].
  destruct (stmt d) as [d' |]; [| discriminate].
  intros [= <- _]. cbn. eauto.
Qed.

(** The records after a failing insert do not change what the batch
    does. *)
Lemma cache_batch_abort (E : env) (l1 : list row) (bad : row) (l2 : list row)
    (c : sqlconn) (s : state) :
  binds bad = false \/ sqlite_insert_fails E = Some (length l1) ->
  cache_batch E (l1 ++ bad :: l2) c s = cache_batch E (l1 ++ [bad]) c s.
Proof.
  intros Hbad. unfold cache_batch.
  apply bind_congr. intros c1 s1 _.
  apply bind_congr. intros c2 s2 _.
  apply bind_congr. intros c3 s3 _.
  apply bind_congr. intros c4 s4 H4.
  apply sqlite_ddl_sees in H4 as (d & Hd).
  apply bind_congr. intros now s5 _. cbv zeta.
  unfold bind at 1 3.
  rewrite (insert_all_abort E (DateTime.strftime now) l1 bad l2 0 c4 s5 d Hd Hbad).
  reflexivity.
Qed.

Lemma save_to_cache_db_abort (E : env) (l1 : list row) (bad : row)
    (l2 : list row) (db_path : option string) (s : state) :
  binds bad = false \/ sqlite_insert_fails E = Some (length l1) ->
  save_to_cache_db E (l1 ++ bad :: l2) db_path s
  = save_to_cache_db E (l1 ++ [bad]) db_path s.
Proof.
  intros Hbad.
  destruct (backup_cache_db_returns E
              (default (path_join (script_dir E) (cache_db (cfg E))) db_path)
              (Some (path_join (script_dir E)
                       (default DEFAULT_BACKUP_DB (backup_db (cfg E))))) s)
    as (b & s1 & Hrot).
  rewrite !(save_to_cache_db_unfold E _ db_path s b s1 Hrot). cbv zeta.
  destruct (sqlite_connect_fails E); [reflexivity |].
  unfold finally, try_except.
  rewrite (cache_batch_abort E l1 bad l2 _ _ Hbad). reflexivity.
Qed.

(** ** The cache writer: what a run stores *)

(** Three records, the second with a value [sqlite3] cannot bind. *)
Example good_record : row :=
  {[ "event_id"%string := PInt 1; "attribute_value"%string := PStr "example.org" ]}.

Example unbindable_record : row :=
  {[ "event_id"%string := PInt 1; "attribute_value"%string := POther "Decimal" ]}.

Example bare_record : row := ∅.

(** C2, as the code behaves: when the insert of one record fails (its
    values cannot be bound, or the store refuses the statement), the
    records after it are not looked at, the failure is logged, and no row
    of that run is persisted: the store holds the rows it held once the
    rotation was over, because the inserts of the run were never
    committed. *)
Theorem save_to_cache_db_failed_batch (E : env) (l1 : list row) (bad : row)
    (l2 : list row) (db_path : option string) (s : state) :
  binds bad = false \/ sqlite_insert_fails E = Some (length l1) ->
  let path := default (path_join (script_dir E) (cache_db (cfg E))) db_path in
  let bk := path_join (script_dir E)
              (default DEFAULT_BACKUP_DB (backup_db (cfg E))) in
  let s_rot := snd (backup_cache_db E path (Some bk) s) in
  let s' := snd (save_to_cache_db E (l1 ++ bad :: l2) db_path s) in
  save_to_cache_db E (l1 ++ bad :: l2) db_path s
  = save_to_cache_db E (l1 ++ [bad]) db_path s
  /\ stored_rows (files s') path = stored_rows (files s_rot) path
  /\ In (Log ERROR "Error saving IOCs to cache database") (journal s').
Proof.
  intros Hbad. cbv zeta. split; [apply save_to_cache_db_abort; exact Hbad |].
  pose proof (save_to_cache_db_store E (l1 ++ bad :: l2) db_path s) as H.
  cbv zeta in H. rewrite (batch_result_failed_insert E _ l1 bad l2 Hbad) in H.
  exact H.
Qed.

Lemma save_to_cache_db_failed_batch_witness :
  binds unbindable_record = false
  /\ stored_rows
       (files (snd (save_to_cache_db sample_env
                      ([good_record] ++ unbindable_record :: [good_record])
                      None fresh_state)))
       "/opt/misp/ioc_cache.db"
     = [].
Proof.
  split; [reflexivity |].
  destruct (save_to_cache_db_failed_batch sample_env [good_record]
              unbindable_record [good_record] None fresh_state)
    as (_ & H & _).
  - left. reflexivity.
  - exact H.
Defined.

(** C2, as stated, fails: the first record is inserted, the second cannot
    be bound, and after the run the store has the table and no row. *)
Lemma save_to_cache_db_rolls_back :
  let s' := snd (save_to_cache_db sample_env
                   [good_record; unbindable_record; good_record]
                   None fresh_state) in
  binds good_record = true
  /\ binds unbindable_record = false
  /\ (exists d t, files s' !! "/opt/misp/ioc_cache.db"%string = Some (Sqlite d)
                  /\ misp_iocs d = Some t
                  /\ columns t = SQLite.CACHE_COLUMNS
                  /\ tbl_rows t = [])
  /\ In (Log ERROR "Error saving IOCs to cache database") (journal s').
Proof.
  cbv zeta. split; [reflexivity |]. split; [reflexivity |]. split.
  - eexists. eexists. split; [vm_compute; reflexivity |].
    split; [reflexivity |]. split; reflexivity.
  - vm_compute. right. left. reflexivity.
Qed.

(** The rows a run adds to the store, whatever happens to it. *)
Lemma save_to_cache_db_new_rows (E : env) (iocs : list row)
    (db_path : option string) (s : state) :
  let path := default (path_join (script_dir E) (cache_db (cfg E))) db_path in
  let bk := path_join (script_dir E)
              (default DEFAULT_BACKUP_DB (backup_db (cfg E))) in
  let s_rot := snd (backup_cache_db E path (Some bk) s) in
  let s' := snd (save_to_cache_db E iocs db_path s) in
  exists new,
    stored_rows (files s') path = stored_rows (files s_rot) path ++ new
    /\ (batch_result E (files s_rot !! path) iocs = None -> new = [])
    /\ (batch_result E (files s_rot !! path) iocs <> None ->
        Forall2 absent_fields_stored iocs new)
    /\ Forall (fun r => cell r "executive_summary" = SNull) new
    /\ (files s_rot !! path = None ->
        Forall (fun r => r !! "executive_summary"%string = Some SNull) new).
Proof.
  cbv zeta. pose proof (save_to_cache_db_store E iocs db_path s) as H.
  cbv zeta in H.
  destruct (batch_result E _ iocs) as [d' |] eqn:Hres.
  - destruct H as [H _].
    destruct (batch_result_rows E _ _ iocs d' Hres)
      as (new & Hnew & Hall & Hcells & Hsum).
    exists new. rewrite H, Hnew. repeat split; auto. discriminate.
  - destruct H as [H _]. exists []. rewrite H, app_nil_r.
    repeat split; auto; try (intros; apply Forall_nil; exact I).
    congruence.
Qed.

(** C8: the table the writer creates has an [executive_summary] column,
    the [INSERT] of the writer does not list it, and every row a run adds
    to the store has it empty: it is [NULL] in each of them when the run
    started the store afresh, and never holds a value in any case. *)
Theorem cache_rows_leave_summary_empty (E : env) (iocs : list row)
    (db_path : option string) (s : state) :
  let path := default (path_join (script_dir E) (cache_db (cfg E))) db_path in
  let bk := path_join (script_dir E)
              (default DEFAULT_BACKUP_DB (backup_db (cfg E))) in
  let s_rot := snd (backup_cache_db E path (Some bk) s) in
  let s' := snd (save_to_cache_db E iocs db_path s) in
  In "executive_summary"%string SQLite.CACHE_COLUMNS
  /\ ~ In "executive_summary"%string SQLite.INSERT_COLUMNS
  /\ exists new,
       stored_rows (files s') path = stored_rows (files s_rot) path ++ new
       /\ Forall (fun r => cell r "executive_summary" = SNull) new
       /\ (files s_rot !! path = None ->
           Forall (fun r => r !! "executive_summary"%string = Some SNull) new)
       /\ (batch_result E (files s_rot !! path) iocs <> None ->
           length new = length iocs).
Proof.
  cbv zeta. split; [| split].
  - cbn. repeat first [left; reflexivity | right].
  - intros H. apply list_elem_of_In in H. exact (summary_not_inserted H).
  - destruct (save_to_cache_db_new_rows E iocs db_path s)
      as (new & Hrows & _ & Hall & Hcells & Hsum).
    exists new. repeat split; auto.
    intros Hres. symmetry. eapply Forall2_length. apply Hall. exact Hres.
Qed.

Lemma cache_rows_leave_summary_empty_witness :
  exists r1 r2,
    stored_rows
      (files (snd (save_to_cache_db sample_env [good_record; bare_record]
                     None fresh_state)))
      "/opt/misp/ioc_cache.db"
    = [r1; r2]
    /\ r1 !! "executive_summary"%string = Some SNull
    /\ r2 !! "executive_summary"%string = Some SNull.
Proof.
  destruct (cache_rows_leave_summary_empty sample_env [good_record; bare_record]
              None fresh_state)
    as (_ & _ & new & Hrows & _ & Hsum & Hlen).
  cbv zeta in *.
  assert (Hl : length new = 2%nat) by (apply Hlen; vm_compute; discriminate).
  destruct new as [| r1 [| r2 [| r3 new]]]; try discriminate.
  exists r1, r2. split; [exact Hrows |].
  assert (Hs : Forall (fun r : gmap string sqlval =>
                         r !! "executive_summary"%string = Some SNull) [r1; r2])
    by (apply Hsum; vm_compute; reflexivity).
  inversion Hs as [| ? ? H1 Hs']. inversion Hs' as [| ? ? H2 _].
  split; assumption.
Defined.

(** C9: on the table the writer creates, the [INSERT] of a record whose
    values can be bound succeeds and adds one row; in that row, and in
    every row a run that goes through adds to the store, a missing
    [attribute_to_ids] is stored as 0 and each of the eleven other fields
    of the record, when missing, is stored as [NULL]. *)
Theorem insert_stores_absent_fields (E : env) (iocs : list row)
    (db_path : option string) (s : state) :
  let path := default (path_join (script_dir E) (cache_db (cfg E))) db_path in
  let bk := path_join (script_dir E)
              (default DEFAULT_BACKUP_DB (backup_db (cfg E))) in
  let s_rot := snd (backup_cache_db E path (Some bk) s) in
  let s' := snd (save_to_cache_db E iocs db_path s) in
  (forall (ct : string) (ioc : row) (d : database) (t : table),
      misp_iocs d = Some t -> columns t = SQLite.CACHE_COLUMNS ->
      binds ioc = true ->
      exists d' r,
        SQLite.insert SQLite.INSERT_COLUMNS (insert_values ct ioc) d = Ok d'
        /\ table_rows d' = table_rows d ++ [r]
        /\ absent_fields_stored ioc r)
  /\ exists new,
       stored_rows (files s') path = stored_rows (files s_rot) path ++ new
       /\ (batch_result E (files s_rot !! path) iocs = None -> new = [])
       /\ (batch_result E (files s_rot !! path) iocs <> None ->
           Forall2 absent_fields_stored iocs new).
Proof.
  cbv zeta. split.
  - intros ct ioc d t Ht Hcols Hbinds.
    destruct (binds_true ct ioc Hbinds) as (cells & Hcells).
    destruct (SQLite.insert SQLite.INSERT_COLUMNS (insert_values ct ioc) d)
      as [d' | e] eqn:Hins.
    + apply insert_row_facts in Hins as (t' & r & Ht' & Hd' & Habs & _).
      exists d', r. split; [reflexivity |]. split; [| exact Habs].
      unfold table_rows. rewrite Ht', Hd'. reflexivity.
    + exfalso. unfold SQLite.insert in Hins. rewrite Ht, Hcols, Hcells in Hins.
      cbn in Hins. discriminate.
  - destruct (save_to_cache_db_new_rows E iocs db_path s)
      as (new & Hrows & Hnone & Hall & _).
    exists new. auto.
Qed.

Lemma insert_stores_absent_fields_witness :
  exists r,
    stored_rows
      (files (snd (save_to_cache_db sample_env [bare_record] None fresh_state)))
      "/opt/misp/ioc_cache.db"
    = [r]
    /\ r !! "attribute_to_ids"%string = Some (SInteger 0)
    /\ r !! "attribute_comment"%string = Some SNull
    /\ r !! "event_id"%string = Some SNull.
Proof.
  destruct (insert_stores_absent_fields sample_env [bare_record] None fresh_state)
    as (_ & new & Hrows & _ & Hall).
  cbv zeta in *.
  assert (Hres : batch_result sample_env
                   (files (snd (backup_cache_db sample_env "/opt/misp/ioc_cache.db"
                                  (Some "/opt/misp/ioc_cache_yesterday.db"%string)
                                  fresh_state))
                    !! "/opt/misp/ioc_cache.db"%string) [bare_record] <> None)
    by (vm_compute; discriminate).
  specialize (Hall Hres).
  inversion Hall as [| ioc r iocs' new' [Hids Hplain] Hrest]; subst.
  inversion Hrest; subst.
  exists r. split; [exact Hrows |]. split; [apply Hids; reflexivity |].
  split; apply Hplain; try reflexivity; cbn; auto 12.
Defined.

(** A state whose cache path holds yesterday's store. *)
Example used_state : state :=
  {| files := {[ "/opt/misp/ioc_cache.db"%string := Opaque "yesterday" ]};
     journal := [];
     pings := 0 |}.

Lemma backup_cache_db_rotation_witness :
  let s' := snd (backup_cache_db sample_env "/opt/misp/ioc_cache.db" None used_state) in
  fst (backup_cache_db sample_env "/opt/misp/ioc_cache.db" None used_state) = Ok true
  /\ files s' !! "/opt/misp/ioc_cache_yesterday.db"%string = Some (Opaque "yesterday")
  /\ files s' !! "/opt/misp/ioc_cache.db"%string = None.
Proof.
  cbv zeta.
  destruct (backup_cache_db_rotation sample_env "/opt/misp/ioc_cache.db" None used_state)
    as (_ & Hpost & _ & Hok).
  cbv zeta in Hpost, Hok.
  assert (H : fst (backup_cache_db sample_env "/opt/misp/ioc_cache.db" None used_state)
              = Ok true).
  { apply (Hok (Opaque "yesterday")); [reflexivity | reflexivity | discriminate | reflexivity]. }
  split; [exact H |].
  apply (Hpost (Opaque "yesterday")); [reflexivity | exact H].
Defined.
